(** * Investment assistant: routing core and resilience layer

    A shallow embedding of the orchestration code of the investment
    assistant (intent router, LangGraph wiring, retry/fallback decorator,
    metrics and performance collectors, API rate limiter) and of the
    closed-form parts of its stages (portfolio allocation and fund
    selection, financial health score, RSI labels, concept lookup)
    together with the properties stated about it.

    Conventions of the embedding.
    - Python [dict]s are [gmap string _]; [defaultdict] reads insert the
      default, as in Python.
    - [time.time()] values, durations and other Python floats are exact
      rationals ([Q]); binary rounding is not modelled, and the mean
      reported by [get_component_stats] is kept as the unevaluated
      [sum / len] of its samples.  Text is ASCII [string].
    - Module-level singletons ([metrics], [performance], [error_handler],
      the graph object's [request_count]) and the observable effects
      ([logger] calls, [time.sleep]) live in one [World] record that is
      threaded through a state-and-exception monad.
    - Collaborators outside the repository (the wall clock, the LLM chain,
      the four stage nodes, Python's [float()] and [str()] of a non-string)
      are fields of an [Env] record; the n-th call to a collaborator may
      answer differently from the (n+1)-th.
    - The compiled [StateGraph(InvestmentState)] has one channel for each
      key that [InvestmentState] declares: the other keys of the input of a
      run and of the update returned by a node are dropped.  The checks
      that LangGraph makes on an input or an update without any declared
      key are not modelled.
    - [time.sleep] and [json.dumps] raise as in CPython: a [ValueError]
      for a negative length, an [OverflowError] for one beyond the 64-bit
      nanosecond count, a [TypeError] for a value that is not JSON
      serialisable.
    - Only exceptions deriving from [Exception] are modelled.
    - The background thread of [MetricsCollector], which samples CPU,
      memory and disk usage into windows of their own, is not modelled. *)

From Stdlib Require Import ZArith QArith Qminmax Qround Lia Lqa String Ascii List.
From stdpp Require Import base gmap strings list fin_maps pretty.

Set Warnings "-register-all".
Local Open Scope Z_scope.

(** ** Python values and dictionaries *)

Inductive pyfloat :=
| Fin (q : Q)
| PosInf
| NegInf
| NaN.

(** [VObject] is an instance of [object]: it stands for the values that
    are none of the others (it has no items to slice and [json] cannot
    serialise it). *)
Inductive Value :=
| VNone
| VBool (b : bool)
| VInt (z : Z)
| VFloat (f : pyfloat)
| VStr (s : string)
| VList (l : list Value)
| VDict (d : list (string * Value))
| VObject.

Abbreviation Dict := (gmap string Value).

(** Truthiness of a dictionary: [bool(d)] is [len(d) != 0]. *)
Definition dict_truthy (d : Dict) : bool := negb (Nat.eqb (size d) 0).

(** [optional_truthy fb] is the test [if fb:] on an [Optional[Dict]]. *)
Definition optional_truthy (fb : option Dict) : bool :=
  match fb with
  | Some d => dict_truthy d
  | None => false
  end.

(** [d.get(k, dflt)] *)
Definition dict_get (d : Dict) (k : string) (dflt : Value) : Value :=
  default dflt (d !! k).

(** Reading a [defaultdict(int)] / [defaultdict(deque)] entry without the
    insertion side effect. *)
Definition get0 (m : gmap string Z) (k : string) : Z := default 0 (m !! k).
Definition getl {A} (m : gmap string (list A)) (k : string) : list A :=
  default [] (m !! k).

(** ** Text helpers: [str.strip], [str.split], slicing *)

Definition is_space (a : ascii) : bool :=
  let n := nat_of_ascii a in
  ((9 <=? n)%nat && (n <=? 13)%nat) || ((28 <=? n)%nat && (n <=? 32)%nat).

Fixpoint lstrip_chars (l : list ascii) : list ascii :=
  match l with
  | [] => []
  | c :: l' => if is_space c then lstrip_chars l' else l
  end.

Definition strip (s : string) : string :=
  string_of_list_ascii
    (rev (lstrip_chars (rev (lstrip_chars (list_ascii_of_string s))))).

(** [s.split(sep)] for a one-character separator: never the empty list. *)
Fixpoint split_on (sep : ascii) (s : string) : list string :=
  match s with
  | EmptyString => [EmptyString]
  | String c s' =>
      if Ascii.eqb c sep then EmptyString :: split_on sep s'
      else match split_on sep s' with
           | h :: t => String c h :: t
           | [] => [String c EmptyString]
           end
  end.

(** [s[:n]] *)
Definition str_prefix (n : nat) (s : string) : string := substring 0 n s.

(** ** Exceptions *)

Inductive ErrorSeverity := LOW | MEDIUM | HIGH | CRITICAL.

Inductive AppErrorClass :=
| InvestmentAssistantError
| ModelTimeoutError
| DataFetchError
| ValidationError
| ConfigurationError.

(** An exception object: either one of the application's
    [InvestmentAssistantError] classes (message, severity, creation time)
    or any other [Exception] (its class name and [str(e)]). *)
Inductive Exc :=
| AppError (cls : AppErrorClass) (message : string)
           (severity : ErrorSeverity) (timestamp : Q)
| PyError (type_name : string) (message : string).

Definition app_class_name (c : AppErrorClass) : string :=
  match c with
  | InvestmentAssistantError => "InvestmentAssistantError"
  | ModelTimeoutError => "ModelTimeoutError"
  | DataFetchError => "DataFetchError"
  | ValidationError => "ValidationError"
  | ConfigurationError => "ConfigurationError"
  end.

(** [type(e).__name__] *)
Definition exc_type_name (e : Exc) : string :=
  match e with
  | AppError c _ _ _ => app_class_name c
  | PyError n _ => n
  end.

(** [str(e)] *)
Definition exc_str (e : Exc) : string :=
  match e with
  | AppError _ m _ _ => m
  | PyError _ m => m
  end.

Definition is_validation_error (e : Exc) : bool :=
  match e with
  | AppError ValidationError _ _ _ => true
  | _ => false
  end.

(** ** The process state *)

Inductive LogLevel := LvlCritical | LvlError | LvlWarning | LvlInfo.

(** What a [logger] call was about; the rendered text is not modelled. *)
Inductive LogEvent :=
| EvErrorInfo (error_type error_message : string) (timestamp : Q)
              (context : Dict)
| EvUsingFallback (function : string)
| EvProcessing (request_id : string) (preview : Value)
| EvCompleted (request_id : string) (response_time : Q) (intent : string)
| EvFailed (request_id : string) (response_time : Q) (error : string).

Record LogRecord := { log_level : LogLevel; log_event : LogEvent }.

Record ErrorHandler := { error_counts : gmap string Z }.

Record MetricsCollector := {
  window_size : nat;
  metrics : gmap string (list Q);
  counters : gmap string Z;
  start_time : Q
}.

Record Measurement := { duration : Q; timestamp : Q }.

Record PerformanceMonitor := {
  component_metrics : gmap string (list Measurement)
}.

Record World := {
  clock_reads : nat;                (* number of time.time() calls so far *)
  ext_calls : nat;                  (* number of collaborator calls so far *)
  error_handler : ErrorHandler;     (* error_handling.error_handler *)
  collector : MetricsCollector;     (* monitoring.metrics *)
  performance : PerformanceMonitor; (* monitoring.performance *)
  request_count : Z;                (* production_graph.request_count *)
  log : list LogRecord;             (* logger output, oldest first *)
  slept : list Q                    (* time.sleep arguments, oldest first *)
}.

Definition set_clock_reads (n : nat) (w : World) : World :=
  {| clock_reads := n; ext_calls := ext_calls w;
     error_handler := error_handler w; collector := collector w;
     performance := performance w; request_count := request_count w;
     log := log w; slept := slept w |}.

Definition set_ext_calls (n : nat) (w : World) : World :=
  {| clock_reads := clock_reads w; ext_calls := n;
     error_handler := error_handler w; collector := collector w;
     performance := performance w; request_count := request_count w;
     log := log w; slept := slept w |}.

Definition set_error_handler (h : ErrorHandler) (w : World) : World :=
  {| clock_reads := clock_reads w; ext_calls := ext_calls w;
     error_handler := h; collector := collector w;
     performance := performance w; request_count := request_count w;
     log := log w; slept := slept w |}.

Definition set_collector (m : MetricsCollector) (w : World) : World :=
  {| clock_reads := clock_reads w; ext_calls := ext_calls w;
     error_handler := error_handler w; collector := m;
     performance := performance w; request_count := request_count w;
     log := log w; slept := slept w |}.

Definition set_performance (p : PerformanceMonitor) (w : World) : World :=
  {| clock_reads := clock_reads w; ext_calls := ext_calls w;
     error_handler := error_handler w; collector := collector w;
     performance := p; request_count := request_count w;
     log := log w; slept := slept w |}.

Definition set_request_count (n : Z) (w : World) : World :=
  {| clock_reads := clock_reads w; ext_calls := ext_calls w;
     error_handler := error_handler w; collector := collector w;
     performance := performance w; request_count := n;
     log := log w; slept := slept w |}.

Definition set_log (l : list LogRecord) (w : World) : World :=
  {| clock_reads := clock_reads w; ext_calls := ext_calls w;
     error_handler := error_handler w; collector := collector w;
     performance := performance w; request_count := request_count w;
     log := l; slept := slept w |}.

Definition set_slept (l : list Q) (w : World) : World :=
  {| clock_reads := clock_reads w; ext_calls := ext_calls w;
     error_handler := error_handler w; collector := collector w;
     performance := performance w; request_count := request_count w;
     log := log w; slept := l |}.

(** ** The state-and-exception monad *)

Inductive Res (A : Type) :=
| Ok (a : A)
| Raise (e : Exc).
Arguments Ok {A} a.
Arguments Raise {A} e.

Definition M (A : Type) : Type := World -> Res A * World.

Definition ret {A} (a : A) : M A := fun w => (Ok a, w).
Definition raise {A} (e : Exc) : M A := fun w => (Raise e, w).

Definition bind {A B} (m : M A) (k : A -> M B) : M B :=
  fun w =>
    match m w with
    | (Ok a, w') => k a w'
    | (Raise e, w') => (Raise e, w')
    end.

(** [try: body  except Exception as e: handler e] *)
Definition try_except {A} (body : M A) (handler : Exc -> M A) : M A :=
  fun w =>
    match body w with
    | (Ok a, w') => (Ok a, w')
    | (Raise e, w') => handler e w'
    end.

(** [try: body  finally: cleanup] (also the exit of a [with] block). *)
Definition try_finally {A} (body : M A) (cleanup : M unit) : M A :=
  fun w =>
    match body w with
    | (r, w') =>
        match cleanup w' with
        | (Ok _, w'') => (r, w'')
        | (Raise e, w'') => (Raise e, w'')
        end
    end.

Definition modify (f : World -> World) : M unit := fun w => (Ok tt, f w).
Definition gets {A} (f : World -> A) : M A := fun w => (Ok (f w), w).

Notation "x <- m ;; k" := (bind m (fun x => k))
  (at level 100, m at next level, right associativity).
Notation "m ;;; k" := (bind m (fun _ => k))
  (at level 100, right associativity).

(** ** Collaborators outside the repository *)

Inductive Stage :=
| profile_analyzer
| portfolio_builder
| market_researcher
| question_answerer.

Record Env := {
  (** value returned by the n-th [time.time()] call *)
  clock : nat -> Q;
  (** [chain.invoke({"user_message": m})] of the router, as the n-th
      collaborator call: the reply's [content], or an exception *)
  llm : nat -> Value -> Res string;
  (** a stage node, as the n-th collaborator call, on the current state:
      the update it returns, or an exception *)
  stage_node : Stage -> nat -> Dict -> Res Dict;
  (** Python's [float(s)]; [None] stands for [ValueError] *)
  py_float : string -> option pyfloat;
  (** [str(v)] of a value that is not a [str] *)
  py_repr : Value -> string
}.

Definition py_str (env : Env) (v : Value) : string :=
  match v with
  | VStr s => s
  | _ => py_repr env v
  end.

(** [time.time()] *)
Definition time_time (env : Env) : M Q :=
  fun w => (Ok (clock env (clock_reads w)), set_clock_reads (S (clock_reads w)) w).

(** The longest sleep: [time.sleep] counts nanoseconds in a signed
    64-bit integer. *)
Definition sleep_max : Q := 9223372036854775807 # 1000000000.

(** [time.sleep(d)]: a length that does not fit the 64-bit count is an
    [OverflowError], a negative one a [ValueError]. *)
Definition time_sleep (d : Q) : M unit :=
  if Qlt_le_dec sleep_max d then
    raise (PyError "OverflowError" "timestamp too large to convert to C _PyTime_t")
  else if Qlt_le_dec d (- sleep_max) then
    raise (PyError "OverflowError" "timestamp too large to convert to C _PyTime_t")
  else if Qlt_le_dec d 0 then
    raise (PyError "ValueError" "sleep length must be non-negative")
  else modify (fun w => set_slept (slept w ++ [d]) w).

Definition logger (lvl : LogLevel) (ev : LogEvent) : M unit :=
  modify (fun w => set_log (log w ++ [{| log_level := lvl; log_event := ev |}]) w).

(** ** error_handling.py *)

(** [f"{type(error).__name__}:{str(error)[:100]}"] *)
Definition error_key (e : Exc) : string :=
  exc_type_name e +:+ ":" +:+ str_prefix 100 (exc_str e).

(** The logger method chosen by [log_error]. *)
Definition log_level_of (e : Exc) : LogLevel :=
  match e with
  | AppError _ _ CRITICAL _ => LvlCritical
  | AppError _ _ HIGH _ => LvlError
  | AppError _ _ MEDIUM _ => LvlWarning
  | AppError _ _ LOW _ => LvlInfo
  | PyError _ _ => LvlError
  end.

Definition bump (k : string) (c : gmap string Z) : gmap string Z :=
  <[k := get0 c k + 1]> c.

(** [json.dumps(v)] accepts [v]: [None], booleans, numbers ([nan] and
    the infinities included), strings, and lists and dictionaries of
    such values. *)
Fixpoint json_serializable (v : Value) : bool :=
  match v with
  | VObject => false
  | VList l => forallb json_serializable l
  | VDict d => forallb (fun kv => json_serializable (snd kv)) d
  | _ => true
  end.

Definition dict_json_serializable (d : Dict) : bool :=
  forallb (fun kv => json_serializable (snd kv)) (map_to_list d).

(** [json.dumps(error_info)]: of the entries of [error_info] only the
    context can hold a value that [json] rejects. *)
Definition json_dumps_error_info (context : Dict) : M unit :=
  if dict_json_serializable context then ret tt
  else raise (PyError "TypeError" "Object of type object is not JSON serializable").

(** [ErrorHandler.log_error(error, context)]: [error_info] is built (the
    clock is read), the error is counted, then [error_info] is serialised
    and logged. *)
Definition log_error (env : Env) (e : Exc) (context : Dict) : M unit :=
  ts <- time_time env ;;
  modify (fun w =>
    set_error_handler
      {| error_counts := bump (error_key e) (error_counts (error_handler w)) |}
      w) ;;;
  json_dumps_error_info context ;;;
  logger (log_level_of e)
         (EvErrorInfo (exc_type_name e) (exc_str e) ts context).

(** How the [for attempt in range(retries + 1)] loop was left. *)
Inductive LoopExit :=
| Returned (v : Dict)
| Broke (last_exception : option Exc).

(** Which [except] clause of the wrapper catches [e]. *)
Inductive Clause := OnTimeout | OnDataFetch | OnValidation | OnOther.

Definition clause_of (e : Exc) : Clause :=
  match e with
  | AppError ModelTimeoutError _ _ _ => OnTimeout
  | AppError DataFetchError _ _ _ => OnDataFetch
  | AppError ValidationError _ _ _ => OnValidation
  | _ => OnOther
  end.

(** The body of the loop of [wrapper]; [todo] is the number of iterations
    of [range(retries + 1)] still to run and [attempt] the loop variable. *)
Fixpoint retry_loop (env : Env) (retries : Z) (delay : Q) (fname : string)
    (func : M Dict) (todo : nat) (attempt : Z) (last_exception : option Exc)
    : M LoopExit :=
  match todo with
  | O => ret (Broke last_exception)
  | S todo' =>
      fun w =>
        match func w with
        | (Ok v, w1) => (Ok (Returned v), w1)
        | (Raise e, w1) =>
            match clause_of e with
            | OnTimeout =>
                (log_error env e
                   (<["function" := VStr fname]>
                      (<["attempt" := VInt attempt]> ∅)) ;;;
                 if attempt <? retries then
                   time_sleep (delay * inject_Z (2 ^ attempt)) ;;;
                   retry_loop env retries delay fname func todo'
                              (attempt + 1) (Some e)
                 else ret (Broke (Some e))) w1
            | OnDataFetch =>
                (log_error env e
                   (<["function" := VStr fname]>
                      (<["attempt" := VInt attempt]> ∅)) ;;;
                 if attempt <? retries then
                   time_sleep delay ;;;
                   retry_loop env retries delay fname func todo'
                              (attempt + 1) (Some e)
                 else ret (Broke (Some e))) w1
            | OnValidation =>
                (log_error env e (<["function" := VStr fname]> ∅) ;;;
                 ret (Broke last_exception)) w1
            | OnOther =>
                (log_error env e
                   (<["function" := VStr fname]>
                      (<["attempt" := VInt attempt]> ∅)) ;;;
                 if attempt <? retries then
                   time_sleep delay ;;;
                   retry_loop env retries delay fname func todo'
                              (attempt + 1) (Some e)
                 else ret (Broke (Some e))) w1
            end
        end
  end.

(** [raise last_exception]; raising [None] is a [TypeError]. *)
Definition raise_last (last_exception : option Exc) : M Dict :=
  match last_exception with
  | Some e => raise e
  | None => raise (PyError "TypeError" "exceptions must derive from BaseException")
  end.

(** [with_error_handling(retries, delay, fallback_response)(func)], with
    the arguments of the call already applied to [func]. *)
Definition with_error_handling (env : Env) (retries : Z) (delay : Q)
    (fallback_response : option Dict) (fname : string) (func : M Dict)
    : M Dict :=
  out <- retry_loop env retries delay fname func
                    (Z.to_nat (retries + 1)) 0 None ;;
  match out with
  | Returned v => ret v
  | Broke last_exception =>
      match fallback_response with
      | Some d =>
          if dict_truthy d then
            logger LvlWarning (EvUsingFallback fname) ;;; ret d
          else raise_last last_exception
      | None => raise_last last_exception
      end
  end.

(** ** monitoring.py *)

(** [deque(maxlen=n).append(x)] *)
Definition deque_append {A} (maxlen : nat) (x : A) (l : list A) : list A :=
  let l' := l ++ [x] in drop (length l' - maxlen) l'.

(** [self.metrics[k].append(x)] on the [defaultdict] of bounded deques. *)
Definition metrics_append (k : string) (x : Q) (m : MetricsCollector)
    : MetricsCollector :=
  {| window_size := window_size m;
     metrics := <[k := deque_append (window_size m) x (getl (metrics m) k)]> (metrics m);
     counters := counters m;
     start_time := start_time m |}.

(** [self.counters[k] += 1] *)
Definition counter_incr (k : string) (m : MetricsCollector) : MetricsCollector :=
  {| window_size := window_size m;
     metrics := metrics m;
     counters := bump k (counters m);
     start_time := start_time m |}.

(** [MetricsCollector.record_request(intent, response_time, success)] *)
Definition record_request_at (timestamp : Q) (intent : string)
    (response_time : Q) (success : bool) (m : MetricsCollector)
    : MetricsCollector :=
  let m1 := metrics_append "response_times" response_time m in
  let m2 := metrics_append "requests_per_minute" timestamp m1 in
  let m3 := counter_incr "total_requests" m2 in
  let m4 := counter_incr ("intent_" +:+ intent) m3 in
  if success then counter_incr "successful_requests" m4
  else counter_incr "failed_requests" m4.

Definition record_request (env : Env) (intent : string) (response_time : Q)
    (success : bool) : M unit :=
  timestamp <- time_time env ;;
  modify (fun w =>
    set_collector
      (record_request_at timestamp intent response_time success (collector w)) w).

(** [MetricsCollector.record_error(error_type, severity)] *)
Definition record_error_on (error_type severity : string)
    (m : MetricsCollector) : MetricsCollector :=
  counter_incr "total_errors"
    (counter_incr ("severity_" +:+ severity)
       (counter_incr ("error_" +:+ error_type) m)).

Definition record_error (error_type severity : string) : M unit :=
  modify (fun w =>
    set_collector (record_error_on error_type severity (collector w)) w).

(** Reading [d[k]] on a [defaultdict] inserts the default when [k] is
    missing. *)
Definition touch {A} (dflt : A) (k : string) (m : gmap string A) : gmap string A :=
  match m !! k with
  | Some _ => m
  | None => <[k := dflt]> m
  end.

Definition Qsum (l : list Q) : Q := fold_right Qplus 0%Q l.

Definition Qlen {A} (l : list A) : Q := inject_Z (Z.of_nat (length l)).

(** [sum(l) / len(l) if l else 0] *)
Definition mean_or_zero (l : list Q) : Q :=
  match l with
  | [] => 0%Q
  | _ => (Qsum l / Qlen l)%Q
  end.

(** [list(d)[-1] if d else 0] *)
Definition last_or_zero (l : list Q) : Q := List.last l 0%Q.

Record Summary := {
  uptime_seconds : Q;
  system_cpu_usage : Q;
  system_memory_usage : Q;
  system_disk_usage : Q;
  requests_total : Z;
  requests_successful : Z;
  requests_failed : Z;
  requests_per_minute : nat;
  requests_avg_response_time : Q;
  llm_total_tokens : Z;
  llm_total_cost : Z;
  llm_avg_tokens_per_request : Q;
  errors_total : Z;
  errors_rate : Q
}.

(** The values computed by [get_metrics_summary] at time [now].  The
    ["intents"] entry, which depends on the iteration order of the
    counters, is not modelled. *)
Definition summary_at (now : Q) (m : MetricsCollector) : Summary :=
  let recent_requests :=
    List.filter (fun t => if Qlt_le_dec (now - t) 60 then true else false)
                (getl (metrics m) "requests_per_minute") in
  let response_times := getl (metrics m) "response_times" in
  {| uptime_seconds := now - start_time m;
     system_cpu_usage := last_or_zero (getl (metrics m) "cpu_usage");
     system_memory_usage := last_or_zero (getl (metrics m) "memory_usage");
     system_disk_usage := last_or_zero (getl (metrics m) "disk_usage");
     requests_total := get0 (counters m) "total_requests";
     requests_successful := get0 (counters m) "successful_requests";
     requests_failed := get0 (counters m) "failed_requests";
     requests_per_minute := length recent_requests;
     requests_avg_response_time := mean_or_zero response_times;
     llm_total_tokens := get0 (counters m) "total_tokens";
     llm_total_cost := get0 (counters m) "total_cost";
     llm_avg_tokens_per_request :=
       inject_Z (get0 (counters m) "total_tokens")
       / inject_Z (Z.max (get0 (counters m) "total_requests") 1);
     errors_total := get0 (counters m) "total_errors";
     errors_rate :=
       inject_Z (get0 (counters m) "total_errors")
       / inject_Z (Z.max (get0 (counters m) "total_requests") 1) |}%Q.

(** The collector after [get_metrics_summary]: the [defaultdict] reads
    have created the entries that were missing. *)
Definition summary_touch (m : MetricsCollector) : MetricsCollector :=
  {| window_size := window_size m;
     metrics :=
       touch [] "disk_usage" (touch [] "memory_usage" (touch [] "cpu_usage"
         (touch [] "response_times"
            (touch [] "requests_per_minute" (metrics m)))));
     counters :=
       touch 0 "total_errors" (touch 0 "total_tokens"
         (touch 0 "failed_requests" (touch 0 "successful_requests"
            (touch 0 "total_requests" (counters m)))));
     start_time := start_time m |}.

(** [MetricsCollector.get_metrics_summary()] *)
Definition get_metrics_summary (env : Env) : M Summary :=
  now <- time_time env ;;
  s <- gets (fun w => summary_at now (collector w)) ;;
  modify (fun w => set_collector (summary_touch (collector w)) w) ;;;
  ret s.

(** [if len(l) > 100: l = l[-100:]] *)
Definition keep_recent {A} (l : list A) : list A :=
  if (100 <? length l)%nat then drop (length l - 100) l else l.

(** [PerformanceMonitor.record_component_time(name, duration)] *)
Definition record_component_time_at (ts : Q) (name : string) (d : Q)
    (p : PerformanceMonitor) : PerformanceMonitor :=
  let l := getl (component_metrics p) name
           ++ [{| duration := d; timestamp := ts |}] in
  {| component_metrics := <[name := keep_recent l]> (component_metrics p) |}.

Definition record_component_time (env : Env) (name : string) (d : Q) : M unit :=
  ts <- time_time env ;;
  modify (fun w =>
    set_performance (record_component_time_at ts name d (performance w)) w).

(** [with monitor.time_component(name): body] *)
Definition time_component {A} (env : Env) (name : string) (body : M A) : M A :=
  t0 <- time_time env ;;
  try_finally body
    (t1 <- time_time env ;;
     record_component_time env name (t1 - t0)%Q).

(** [sum(l) / len(l)] on floats, left as it is written: binary64
    arithmetic rounds the sum and the quotient, so the result is the mean
    of [l] only up to rounding and can even leave the range of [l] (three
    samples of 0.1 have the mean 0.10000000000000002). *)
Inductive FloatMean := MeanOf (samples : list Q).

Record ComponentStats := {
  stat_count : nat;
  avg_duration : FloatMean;
  min_duration : Q;
  max_duration : Q;
  last_duration : Q
}.

Definition component_stats (ms : list Measurement) : option ComponentStats :=
  match List.map duration ms with
  | [] => None
  | d :: ds =>
      Some {| stat_count := length (d :: ds);
              avg_duration := MeanOf (d :: ds);
              min_duration := fold_left Qmin ds d;
              max_duration := fold_left Qmax ds d;
              last_duration := List.last ds d |}
  end.

(** [PerformanceMonitor.get_component_stats()] *)
Definition get_component_stats (p : PerformanceMonitor)
    : gmap string ComponentStats :=
  omap component_stats (component_metrics p).

(** ** nodes/router.py *)

Definition default_intent : string := "question_answering".
Definition default_confidence : pyfloat := Fin (1 # 2).

(** The [try]/[except] of [router_node] on the reply's [content]:
    [content.strip().split("|")] must unpack into exactly two parts and
    [float] must accept the second one; anything else takes the fallback. *)
Definition parse_reply (env : Env) (content : string) : string * pyfloat :=
  match split_on "|" (strip content) with
  | [intent; confidence] =>
      match py_float env confidence with
      | Some f => (intent, f)
      | None => (default_intent, default_confidence)
      end
  | _ => (default_intent, default_confidence)
  end.

(** One call to a collaborator: the answer is looked up at the current
    call number, which is then advanced. *)
Definition external {A} (answer : nat -> Res A) : M A :=
  fun w => (answer (ext_calls w), set_ext_calls (S (ext_calls w)) w).

(** [router_node(state)]: the update it returns. *)
Definition router_node (env : Env) (state : Dict) : M Dict :=
  match state !! "user_message" with
  | None => raise (PyError "KeyError" "'user_message'")
  | Some um =>
      content <- external (fun n => llm env n um) ;;
      let '(intent, confidence) := parse_reply env content in
      ret (<["confidence" := VFloat confidence]>
             (<["intent" := VStr intent]> (∅ : Dict)))
  end.

(** ** graph.py *)

Definition stage_name (s : Stage) : string :=
  match s with
  | profile_analyzer => "profile_analyzer"
  | portfolio_builder => "portfolio_builder"
  | market_researcher => "market_researcher"
  | question_answerer => "question_answerer"
  end.

Definition value_is_str (v : Value) (s : string) : bool :=
  match v with
  | VStr s' => bool_decide (s' = s)
  | _ => false
  end.

(** [route_decision(state)]: the name it returns. *)
Definition route_decision (state : Dict) : string :=
  let intent := dict_get state "intent" (VStr "question_answering") in
  if value_is_str intent "profile_analysis" then "profile_analyzer"
  else if value_is_str intent "portfolio_creation" then "portfolio_builder"
  else if value_is_str intent "market_research" then "market_researcher"
  else "question_answerer".

(** The keys declared by [InvestmentState]. *)
Definition state_keys : list string :=
  ["user_message"; "conversation_history";
   "intent"; "confidence";
   "risk_tolerance"; "investment_horizon"; "age_range"; "income_level";
   "investment_goals"; "reasoning";
   "recommended_allocation"; "etf_selection"; "builder_reasoning";
   "stock_symbol"; "current_price"; "price_change_pct"; "technical_signals";
   "fundamental_ratios"; "market_analysis"; "recommendation";
   "confidence_score";
   "response"; "next_action"].

(** What [StateGraph(InvestmentState)] keeps of a dictionary: the compiled
    graph has one channel for each declared key and ignores every other
    key, in the input of a run and in the update returned by a node. *)
Definition declared (d : Dict) : Dict :=
  filter (fun kv => fst kv ∈ state_keys) d.

Inductive Node :=
| NRouter
| NStage (s : Stage)
| NEnd.

(** The mapping given to [add_conditional_edges]. *)
Definition path_map : list (string * Node) :=
  [("profile_analyzer", NStage profile_analyzer);
   ("portfolio_builder", NStage portfolio_builder);
   ("market_researcher", NStage market_researcher);
   ("question_answerer", NStage question_answerer);
   ("__end__", NEnd)].

Fixpoint assoc {A} (k : string) (l : list (string * A)) : option A :=
  match l with
  | [] => None
  | (k', a) :: l' => if bool_decide (k' = k) then Some a else assoc k l'
  end.

(** The edges of the compiled graph: conditional out of the router,
    direct to [END] out of every stage. *)
Definition next_node (n : Node) (state : Dict) : option Node :=
  match n with
  | NRouter => assoc (route_decision state) path_map
  | NStage _ => Some NEnd
  | NEnd => None
  end.

(** Running the function attached to a node. *)
Definition run_node (env : Env) (n : Node) (state : Dict) : M Dict :=
  match n with
  | NRouter => router_node env state
  | NStage s => external (fun k => stage_node env s k state)
  | NEnd => ret ∅
  end.

(** The nodes of a run, from node [n] on the channel values [state]: the
    declared keys of a node's update are written over the state, then the
    outgoing edge is followed.  Besides the final state the run yields the
    list of nodes it executed, in order; [fuel] bounds the number of
    nodes. *)
Fixpoint run_nodes (env : Env) (fuel : nat) (n : Node) (state : Dict)
    : M (Dict * list Node) :=
  match fuel with
  | O => raise (PyError "GraphRecursionError" "Recursion limit reached")
  | S fuel' =>
      match n with
      | NEnd => ret (state, [])
      | _ =>
          update <- run_node env n state ;;
          let state' := declared update ∪ state in
          match next_node n state' with
          | None => raise (PyError "ValueError" "unknown route")
          | Some n' =>
              r <- run_nodes env fuel' n' state' ;;
              ret (fst r, n :: snd r)
          end
      end
  end.

(** The graph run on [input]: the declared keys of the input are the
    first channel values. *)
Definition run_graph (env : Env) (fuel : nat) (n : Node) (input : Dict)
    : M (Dict * list Node) :=
  run_nodes env fuel n (declared input).

(** LangGraph's default recursion limit. *)
Definition recursion_limit : nat := 25.

(** [investment_graph.invoke(input)] *)
Definition graph_invoke (env : Env) (input : Dict) : M Dict :=
  r <- run_graph env recursion_limit NRouter input ;;
  ret (fst r).

(** ** production/enhanced_graph.py *)

(** [int(x)] on a float: truncation towards zero. *)
Definition Qtrunc (q : Q) : Z := Z.quot (Qnum q) (Zpos (Qden q)).

(** [v[:100]] *)
Definition slice100 (v : Value) : Res Value :=
  match v with
  | VStr s => Ok (VStr (str_prefix 100 s))
  | VList l => Ok (VList (take 100 l))
  | VNone => Raise (PyError "TypeError" "'NoneType' object is not subscriptable")
  | VBool _ => Raise (PyError "TypeError" "'bool' object is not subscriptable")
  | VInt _ => Raise (PyError "TypeError" "'int' object is not subscriptable")
  | VFloat _ => Raise (PyError "TypeError" "'float' object is not subscriptable")
  | VDict _ => Raise (PyError "TypeError" "unhashable type: 'slice'")
  | VObject => Raise (PyError "TypeError" "'object' object is not subscriptable")
  end.

Definition lift_res {A} (r : Res A) : M A := fun w => (r, w).

(** [raise ValidationError(msg)]: the constructor stamps the exception
    with the default severity and the current time. *)
Definition raise_validation {A} (env : Env) (msg : string) : M A :=
  ts <- time_time env ;;
  raise (AppError ValidationError msg MEDIUM ts).

(** [ProductionInvestmentGraph._validate_input] *)
Definition _validate_input (env : Env) (input_data : Dict) : M unit :=
  match input_data !! "user_message" with
  | None => raise_validation env "Missing required field: user_message"
  | Some (VStr user_message) =>
      if (String.length (strip user_message) =? 0)%nat then
        raise_validation env "user_message cannot be empty"
      else if (1000 <? String.length user_message)%nat then
        raise_validation env "user_message too long (max 1000 characters)"
      else ret tt
  | Some _ => raise_validation env "user_message must be a string"
  end.

(** [f"req_{int(start_time)}_{self.request_count}"] *)
Definition make_request_id (start : Q) (count : Z) : string :=
  "req_" +:+ pretty (Qtrunc start) +:+ "_" +:+ pretty count.

(** The undecorated body of [ProductionInvestmentGraph.invoke]. *)
Definition invoke_body (env : Env) (input_data : Dict) : M Dict :=
  start <- time_time env ;;
  modify (fun w => set_request_count (request_count w + 1) w) ;;;
  count <- gets request_count ;;
  let request_id := make_request_id start count in
  preview <- lift_res (slice100 (dict_get input_data "user_message" (VStr ""))) ;;
  logger LvlInfo (EvProcessing request_id preview) ;;;
  try_except
    (_validate_input env input_data ;;;
     let enhanced_input :=
       <["timestamp" := VFloat (Fin start)]>
         (<["request_id" := VStr request_id]> input_data) in
     result <- time_component env "graph_execution"
                 (graph_invoke env enhanced_input) ;;
     now <- time_time env ;;
     let response_time := (now - start)%Q in
     let intent := py_str env (dict_get result "intent" (VStr "unknown")) in
     record_request env intent response_time true ;;;
     let result' :=
       <["response_time" := VFloat (Fin response_time)]>
         (<["request_id" := VStr request_id]> result) in
     logger LvlInfo (EvCompleted request_id response_time intent) ;;;
     ret result')
    (fun e =>
       now <- time_time env ;;
       let response_time := (now - start)%Q in
       record_request env "error" response_time false ;;;
       logger LvlError (EvFailed request_id response_time (exc_str e)) ;;;
       raise e).

(** The [fallback_response] given to the decorator of [invoke]. *)
Definition invoke_fallback : Dict :=
  <["confidence" := VFloat (Fin 0)]>
    (<["intent" := VStr "error"]>
       (<["response" := VStr "I apologize, but I'm experiencing technical difficulties. Please try again in a moment."]> ∅)).

(** [ProductionInvestmentGraph.invoke], as decorated. *)
Definition invoke (env : Env) (input_data : Dict) : M Dict :=
  with_error_handling env 2 1 (Some invoke_fallback) "invoke"
    (invoke_body env input_data).

Record HealthStatus := {
  status : string;
  health_timestamp : Q;
  uptime : Q;
  requests_processed : Z;
  error_rate : Q;
  avg_response_time : Q;
  system_cpu : Q;
  system_memory : Q;
  components : gmap string ComponentStats
}.

(** The request sent by the health probe. *)
Definition health_probe : Dict :=
  <["conversation_history" := VList []]>
    (<["user_message" := VStr "What is compound interest?"]> ∅).

(** [ProductionInvestmentGraph.get_health_status] *)
Definition get_health_status (env : Env) : M HealthStatus :=
  api_healthy <-
    try_except
      (test_result <- invoke env health_probe ;;
       ret (negb (value_is_str (dict_get test_result "intent" VNone) "error")))
      (fun _ => ret false) ;;
  s <- get_metrics_summary env ;;
  ts <- time_time env ;;
  comps <- gets (fun w => get_component_stats (performance w)) ;;
  ret {| status := if api_healthy then "healthy" else "unhealthy";
         health_timestamp := ts;
         uptime := uptime_seconds s;
         requests_processed := requests_total s;
         error_rate := errors_rate s;
         avg_response_time := requests_avg_response_time s;
         system_cpu := system_cpu_usage s;
         system_memory := system_memory_usage s;
         components := comps |}.

(** ** api/main.py: the rate limiter *)

Module RateLimiter.

(** The two settings of [ProductionConfig] read by the check. *)
Record Config := {
  api_key_required : bool;
  max_requests_per_minute : Z
}.

(** [ProductionConfig()] with no environment variable set. *)
Definition default_config : Config :=
  {| api_key_required := false; max_requests_per_minute := 60 |}.

Inductive Outcome := Allowed | TooManyRequests.

(** [request.user_id or "anonymous"] *)
Definition identity (user_id : option string) : string :=
  match user_id with
  | Some EmptyString => "anonymous"
  | Some s => s
  | None => "anonymous"
  end.

(** [[t for t in ts if now - t < 60]] *)
Definition prune (now : Q) (ts : list Q) : list Q :=
  List.filter (fun t => if Qlt_le_dec (now - t) 60 then true else false) ts.

(** [rate_limit_check(request)] at time [now] on the module-level
    [request_times]. *)
Definition rate_limit_check (cfg : Config) (user_id : option string)
    (now : Q) (request_times : gmap string (list Q))
    : Outcome * gmap string (list Q) :=
  if negb (api_key_required cfg) then (Allowed, request_times)
  else
    let uid := identity user_id in
    let kept :=
      match request_times !! uid with
      | Some ts => prune now ts
      | None => []
      end in
    let request_times1 := <[uid := kept]> request_times in
    if (max_requests_per_minute cfg <=? Z.of_nat (length kept))
    then (TooManyRequests, request_times1)
    else (Allowed, <[uid := kept ++ [now]]> request_times1).

End RateLimiter.

(** ** Concrete collaborators for the scenarios *)

Definition digit_of (a : ascii) : option Z :=
  let n := nat_of_ascii a in
  if ((48 <=? n) && (n <=? 57))%nat then Some (Z.of_nat n - 48) else None.

Fixpoint digits_value (acc : Z) (l : list ascii) : option Z :=
  match l with
  | [] => Some acc
  | c :: l' =>
      match digit_of c with
      | Some d => digits_value (10 * acc + d) l'
      | None => None
      end
  end.

(** A fragment of Python's [float()]: the unsigned literals [ddd] and
    [ddd.ddd].  Python's [float] accepts more (signs, exponents, [inf],
    [nan], blanks around the literal); the scenarios below only use
    literals of this fragment, on which the two agree up to rounding. *)
Definition decimal_float (s : string) : option pyfloat :=
  match split_on "." s with
  | [i] =>
      match list_ascii_of_string i with
      | [] => None
      | ds => z ← digits_value 0 ds; Some (Fin (inject_Z z))
      end
  | [i; f] =>
      match list_ascii_of_string i, list_ascii_of_string f with
      | [], _ | _, [] => None
      | ds, fs =>
          z ← digits_value 0 ds;
          y ← digits_value 0 fs;
          Some (Fin (inject_Z z + inject_Z y / inject_Z (10 ^ Z.of_nat (length fs))))
      end
  | _ => None
  end.

(** A deterministic environment: the clock advances one second per read,
    the LLM and the stages follow the given scripts. *)
Definition scripted_env (replies : nat -> Res string)
    (stages : Stage -> nat -> Dict -> Res Dict) : Env :=
  {| clock := fun n => inject_Z (1000 + Z.of_nat n);
     llm := fun n _ => replies n;
     stage_node := stages;
     py_float := decimal_float;
     py_repr := fun _ => "<object>" |}.

(** [MetricsCollector()]: the constructor reads the clock once. *)
Definition new_collector (start : Q) : MetricsCollector :=
  {| window_size := 100; metrics := ∅; counters := ∅; start_time := start |}.

(** The state of the process once its modules are imported. *)
Definition initial_world (env : Env) : World :=
  {| clock_reads := 1;
     ext_calls := 0;
     error_handler := {| error_counts := ∅ |};
     collector := new_collector (clock env 0);
     performance := {| component_metrics := ∅ |};
     request_count := 0;
     log := [];
     slept := [] |}.

(** ** error_handling.py, continued *)

(** [safe_graph_invoke(graph, input_data, fallback_message)]; [graph] is
    the [invoke] method of the graph it is given.  The error is logged
    with the context [{"input": input_data}]. *)
Definition safe_graph_invoke (env : Env) (graph : Dict -> M Dict)
    (input_data : Dict) (fallback_message : string) : M Dict :=
  try_except (graph input_data)
    (fun e =>
       log_error env e (<["input" := VDict (map_to_list input_data)]> ∅) ;;;
       ret (<["error_type" := VStr (exc_type_name e)]>
              (<["error_occurred" := VBool true]>
                 (<["intent" := VStr "error"]>
                    (<["response" := VStr fallback_message]> ∅))))).

(** [sum(self.error_counts.values())], the ["total_errors"] entry of
    [ErrorHandler.get_error_stats]; its ["error_types"] entry is a copy of
    [error_counts], and its ["top_errors"] entry, which depends on the
    insertion order of the keys, is not modelled. *)
Definition get_error_stats_total (h : ErrorHandler) : Z :=
  map_fold (fun _ n acc => n + acc) 0 (error_counts h).

(** ** nodes/portfolio_builder.py *)

(** [_age_from_range(age_range)] *)
Definition _age_from_range (age_range : string) : Z :=
  if String.eqb age_range "young" then 30
  else if String.eqb age_range "middle-aged" then 45
  else if String.eqb age_range "senior" then 65
  else 40.

(** [_risk_shift(risk)] *)
Definition _risk_shift (risk : string) : Q :=
  if String.eqb risk "aggressive" then 1 # 10
  else if String.eqb risk "moderate" then 0
  else if String.eqb risk "conservative" then - (1 # 10)
  else 0.

(** [_equity_allocation(age, risk)] *)
Definition _equity_allocation (age : Z) (risk : string) : Q :=
  let base := Qmax (1 # 10) (Qmin (9 # 10) (inject_Z (110 - age) / 100)) in
  Qmin (9 # 10) (Qmax (1 # 10) (base + _risk_shift risk)).

(** Rounding to the nearest integer, ties to the even one. *)
Definition round_half_even (q : Q) : Z :=
  let fl := Qfloor q in
  match Qcompare (q - inject_Z fl) (1 # 2) with
  | Lt => fl
  | Gt => fl + 1
  | Eq => if Z.even fl then fl else fl + 1
  end.

(** [round(x, ndigits)] *)
Definition py_round (x : Q) (ndigits : nat) : Q :=
  (inject_Z (round_half_even (x * inject_Z (10 ^ Z.of_nat ndigits)))
   / inject_Z (10 ^ Z.of_nat ndigits))%Q.

Record Etf := { ticker : string; weight : Q; price : Q }.

(** [w > 0.01] *)
Definition meaningful (w : Q) : bool :=
  if Qlt_le_dec (1 # 100) w then true else false.

(** [_select_etfs(equity_pct, bond_pct)]; [download tickers] stands for
    the latest closing prices fetched with [yf.download], [None] for any
    exception raised while fetching. *)
Definition _select_etfs (download : list string -> option (gmap string Q))
    (equity_pct bond_pct : Q) : list Etf :=
  let etfs := [("SPY", equity_pct * (60 # 100));
               ("IEFA", equity_pct * (20 # 100));
               ("VWO", equity_pct * (20 # 100));
               ("AGG", bond_pct * (70 # 100));
               ("SHY", bond_pct * (30 # 100))]%Q in
  let tickers := List.map fst (List.filter (fun tw => meaningful (snd tw)) etfs) in
  let prices : gmap string Q :=
    match tickers with
    | [] => ∅
    | _ => default ∅ (download tickers)
    end in
  List.map (fun tw => {| ticker := fst tw;
                         weight := py_round (snd tw) 4;
                         price := default 0%Q (prices !! fst tw) |})
           (List.filter (fun tw => meaningful (snd tw)) etfs).

(** ** Comparison of floats *)

(** [x < y]: false as soon as one side is NaN. *)
Definition float_lt (x y : pyfloat) : bool :=
  match x, y with
  | NaN, _ | _, NaN => false
  | _, NegInf => false
  | NegInf, _ => true
  | PosInf, _ => false
  | Fin _, PosInf => true
  | Fin a, Fin b => if Qlt_le_dec a b then true else false
  end.

(** [x <= y]: false as soon as one side is NaN. *)
Definition float_le (x y : pyfloat) : bool :=
  match x, y with
  | NaN, _ | _, NaN => false
  | NegInf, _ => true
  | _, PosInf => true
  | _, NegInf => false
  | PosInf, _ => false
  | Fin a, Fin b => if Qlt_le_dec b a then false else true
  end.

(** ** analytics/fundamental_ratios.py *)

(** [ratios.get(key, 0)] *)
Definition ratios_get (ratios : gmap string pyfloat) (key : string) : pyfloat :=
  default (Fin 0) (ratios !! key).

(** [calculate_financial_health_score(ratios)] *)
Definition calculate_financial_health_score (ratios : gmap string pyfloat)
    : Z * string :=
  let score := 0 in
  let score :=
    if float_lt (Fin (15 # 100)) (ratios_get ratios "ROE") then score + 10
    else if float_lt (Fin (10 # 100)) (ratios_get ratios "ROE") then score + 7
    else if float_lt (Fin (5 # 100)) (ratios_get ratios "ROE") then score + 4
    else score in
  let score :=
    if float_lt (Fin (20 # 100)) (ratios_get ratios "Profit_Margin") then score + 10
    else if float_lt (Fin (10 # 100)) (ratios_get ratios "Profit_Margin") then score + 7
    else if float_lt (Fin (5 # 100)) (ratios_get ratios "Profit_Margin") then score + 4
    else score in
  let score :=
    if float_lt (Fin (15 # 100)) (ratios_get ratios "Operating_Margin") then score + 10
    else if float_lt (Fin (10 # 100)) (ratios_get ratios "Operating_Margin") then score + 7
    else if float_lt (Fin (5 # 100)) (ratios_get ratios "Operating_Margin") then score + 4
    else score in
  let pe_ratio := ratios_get ratios "PE_Ratio" in
  let score :=
    if float_lt (Fin 0) pe_ratio && float_lt pe_ratio (Fin 15) then score + 15
    else if float_le (Fin 15) pe_ratio && float_lt pe_ratio (Fin 25) then score + 10
    else if float_le (Fin 25) pe_ratio && float_lt pe_ratio (Fin 35) then score + 5
    else score in
  let pb_ratio := ratios_get ratios "PB_Ratio" in
  let score :=
    if float_lt (Fin 0) pb_ratio && float_lt pb_ratio (Fin (15 # 10)) then score + 10
    else if float_le (Fin (15 # 10)) pb_ratio && float_lt pb_ratio (Fin 3) then score + 7
    else if float_le (Fin 3) pb_ratio && float_lt pb_ratio (Fin 5) then score + 4
    else score in
  let current_ratio := ratios_get ratios "Current_Ratio" in
  let score :=
    if float_lt (Fin 2) current_ratio then score + 10
    else if float_lt (Fin (15 # 10)) current_ratio then score + 7
    else if float_lt (Fin 1) current_ratio then score + 4
    else score in
  let debt_to_equity := ratios_get ratios "Debt_To_Equity" in
  let score :=
    if float_lt debt_to_equity (Fin (3 # 10)) then score + 10
    else if float_lt debt_to_equity (Fin (6 # 10)) then score + 7
    else if float_lt debt_to_equity (Fin 1) then score + 4
    else score in
  let score :=
    if float_lt (Fin 5) (ratios_get ratios "Interest_Coverage") then score + 5
    else if float_lt (Fin 2) (ratios_get ratios "Interest_Coverage") then score + 3
    else score in
  let score :=
    if float_lt (Fin (15 # 100)) (ratios_get ratios "Revenue_Growth") then score + 10
    else if float_lt (Fin (5 # 100)) (ratios_get ratios "Revenue_Growth") then score + 7
    else if float_lt (Fin 0) (ratios_get ratios "Revenue_Growth") then score + 4
    else score in
  let score :=
    if float_lt (Fin (15 # 100)) (ratios_get ratios "Earnings_Growth") then score + 10
    else if float_lt (Fin (5 # 100)) (ratios_get ratios "Earnings_Growth") then score + 7
    else if float_lt (Fin 0) (ratios_get ratios "Earnings_Growth") then score + 4
    else score in
  let rating :=
    if 80 <=? score then "Excellent"
    else if 65 <=? score then "Good"
    else if 50 <=? score then "Average"
    else if 35 <=? score then "Below Average"
    else "Poor" in
  (score, rating).

(** ** analytics/technical_indicators.py *)

(** [interpret_rsi(rsi_value)] *)
Definition interpret_rsi (rsi_value : pyfloat) : string :=
  if float_le (Fin 70) rsi_value then "overbought"
  else if float_le rsi_value (Fin 30) then "oversold"
  else if float_le (Fin 60) rsi_value then "strong"
  else if float_le rsi_value (Fin 40) then "weak"
  else "neutral".

(** ** nodes/question_answerer.py and knowledge/financial_concepts.py *)

(** [str.lower] *)
Definition lower_char (c : ascii) : ascii :=
  let n := nat_of_ascii c in
  if ((65 <=? n) && (n <=? 90))%nat then ascii_of_nat (n + 32) else c.

Fixpoint str_lower (s : string) : string :=
  match s with
  | EmptyString => EmptyString
  | String c s' => String (lower_char c) (str_lower s')
  end.

(** [needle in haystack] *)
Fixpoint str_contains (needle haystack : string) : bool :=
  String.prefix needle haystack ||
  match haystack with
  | EmptyString => false
  | String _ rest => str_contains needle rest
  end.

(** The table [concept_keywords] of [extract_financial_concepts], in the
    order of the dictionary literal. *)
Definition concept_keywords : list (string * list string) :=
  [("compound interest", ["compound"; "compounding"; "growth"]);
   ("diversification", ["diversify"; "diversification"; "spread risk"]);
   ("pe_ratio", ["p/e ratio"; "pe ratio"; "price earnings"; "price to earnings"]);
   ("stocks", ["stock"; "shares"; "equity"; "share market"]);
   ("bonds", ["bond"; "fixed income"; "debt securities"]);
   ("mutual_funds", ["mutual fund"; "mutual funds"; "fund"]);
   ("etf", ["etf"; "exchange traded fund"; "index fund"]);
   ("risk_return_relationship", ["risk return"; "risk vs return"; "risk reward"]);
   ("dollar_cost_averaging", ["dollar cost"; "sip"; "systematic investment"]);
   ("asset_allocation", ["asset allocation"; "portfolio allocation"]);
   ("inflation", ["inflation"; "purchasing power"]);
   ("market_volatility", ["volatility"; "market fluctuation"]);
   ("roe", ["roe"; "return on equity"]);
   ("time_value_of_money", ["time value"; "present value"; "future value"])].

(** [extract_financial_concepts(query)] *)
Definition extract_financial_concepts (query : string) : list string :=
  let query_lower := str_lower query in
  List.map fst
    (List.filter
       (fun ck => existsb (fun keyword => str_contains keyword query_lower) (snd ck))
       concept_keywords).

(** [FinancialKnowledgeBase.get_all_concepts()]: the keys of the knowledge
    base, in the order of the dictionary literal. *)
Definition get_all_concepts : list string :=
  ["compound_interest"; "time_value_of_money"; "risk_return_relationship";
   "diversification"; "stocks"; "bonds"; "mutual_funds"; "etf"; "pe_ratio";
   "roe"; "dollar_cost_averaging"; "asset_allocation"; "market_volatility";
   "inflation"].

(** [FinancialKnowledgeBase.get_concept(concept_key)], on the dictionary
    [knowledge_base] of the instance. *)
Definition get_concept (knowledge_base : gmap string Dict) (concept_key : string)
    : Dict :=
  default ∅ (knowledge_base !! str_lower concept_key).

(** * Vocabulary of the properties *)

(** Split a conjunction into its conjuncts, leaving each one unreduced. *)
Ltac split_conj :=
  repeat match goal with |- _ /\ _ => split end.

(** What [log_error], [time.sleep] and [logger] never write. *)
Definition handler_frame (w w' : World) : Prop :=
  ext_calls w' = ext_calls w /\
  collector w' = collector w /\
  performance w' = performance w /\
  request_count w' = request_count w.

(** The context that the decorator gives to [log_error]: the attempt
    number, left out in the clause of validation errors, and the name of
    the function. *)
Definition wrapper_context (attempt : option Z) (function : string) : Dict :=
  match attempt with
  | Some a => <["function" := VStr function]> (<["attempt" := VInt a]> ∅)
  | None => <["function" := VStr function]> ∅
  end.

(** The world after [log_error] has counted the error, before it
    serialises [error_info]. *)
Definition error_counted (e : Exc) (w : World) : World :=
  set_error_handler
    {| error_counts := bump (error_key e) (error_counts (error_handler w)) |}
    (set_clock_reads (S (clock_reads w)) w).

(** The world after a [log_error] call of the decorator. *)
Definition log_error_effect (env : Env) (e : Exc) (attempt : option Z)
    (function : string) (w : World) : World :=
  let ts := clock env (clock_reads w) in
  let w1 := set_clock_reads (S (clock_reads w)) w in
  let w2 := set_error_handler
              {| error_counts := bump (error_key e) (error_counts (error_handler w1)) |}
              w1 in
  set_log (log w2 ++ [{| log_level := log_level_of e;
                         log_event := EvErrorInfo (exc_type_name e) (exc_str e)
                                        ts (wrapper_context attempt function) |}]) w2.

(** The delay slept before the next attempt. *)
Definition backoff (delay : Q) (e : Exc) (attempt : Z) : Q :=
  match clause_of e with
  | OnTimeout => (delay * inject_Z (2 ^ attempt))%Q
  | _ => delay
  end.

(** [time.sleep] accepts the length [d]. *)
Definition sleepable (d : Q) : Prop := (0 <= d /\ d <= sleep_max)%Q.

(** [time.sleep] accepts the delay that follows each of the attempts
    numbered from 0 to [n - 1], whatever the error of the attempt. *)
Definition backoffs_sleepable (n : Z) (delay : Q) : Prop :=
  forall e attempt, 0 <= attempt < n -> sleepable (backoff delay e attempt).

(** The world after the [except] clause of a failure that is retried. *)
Definition retried_effect (env : Env) (delay : Q) (fname : string)
    (attempt : Z) (e : Exc) (w : World) : World :=
  let w1 := log_error_effect env e (Some attempt) fname w in
  set_slept (slept w1 ++ [backoff delay e attempt]) w1.

(** [only_ext w w']: nothing but the collaborator call counter differs. *)
Definition only_ext (w w' : World) : Prop :=
  exists c, w' = set_ext_calls c w.

(** The keys of the counters written by [record_error] ([total_errors],
    [error_<type>], [severity_<severity>]), recognised by their first
    characters. *)
Definition error_counter_key (k : string) : Prop :=
  k = "total_errors" \/ String.get 0 k = Some "e"%char \/
  (String.get 0 k = Some "s"%char /\ String.get 1 k = Some "e"%char).

(** The text is rejected by [_validate_input]: blank once stripped, or
    longer than 1000 characters. *)
Definition invalid_text (text : string) : Prop :=
  String.length (strip text) = 0%nat \/ (1000 < String.length text)%nat.

(** The message of the [ValidationError] raised for a rejected text. *)
Definition validation_message (text : string) : string :=
  if (String.length (strip text) =? 0)%nat then "user_message cannot be empty"
  else "user_message too long (max 1000 characters)".

(** The text passes [_validate_input]. *)
Definition valid_text (text : string) : Prop :=
  String.length (strip text) <> 0%nat /\ (String.length text <= 1000)%nat.

(** The computation returned rather than raised. *)
Definition is_ok {A} (r : Res A) : bool :=
  match r with Ok _ => true | Raise _ => false end.

(** The request id given to the attempt started in [w]. *)
Definition attempt_request_id (env : Env) (w : World) : string :=
  make_request_id (clock env (clock_reads w)) (request_count w + 1).

(** The dictionary handed to the graph by the attempt started in [w]. *)
Definition enhanced_input (env : Env) (input_data : Dict) (w : World) : Dict :=
  <["timestamp" := VFloat (Fin (clock env (clock_reads w)))]>
    (<["request_id" := VStr (attempt_request_id env w)]> input_data).

(** The world in which the graph is invoked by the attempt started in [w]. *)
Definition graph_entry (env : Env) (preview : Value) (w : World) : World :=
  let w1 := set_request_count (request_count w + 1)
              (set_clock_reads (S (clock_reads w)) w) in
  let w2 := set_log (log w1 ++ [{| log_level := LvlInfo;
                                   log_event := EvProcessing (attempt_request_id env w) preview |}]) w1 in
  set_clock_reads (S (clock_reads w2)) w2.

(** The intent under which an attempt is recorded, given how its graph
    run ended. *)
Definition recorded_intent (env : Env) (r : Res Dict) : string :=
  match r with
  | Ok result => py_str env (dict_get result "intent" (VStr "unknown"))
  | Raise _ => "error"
  end.

(** The outcome of an attempt, given how its graph run ended: a result
    gets its [request_id] and [response_time], an exception is re-raised. *)
Definition stamped (env : Env) (w : World) (r : Res Dict) : Res Dict :=
  match r with
  | Ok result =>
      Ok (<["response_time" := VFloat (Fin (clock env (4 + clock_reads w) - clock env (clock_reads w)))]>
            (<["request_id" := VStr (attempt_request_id env w)]> result))
  | Raise e => Raise e
  end.

(** The request [{"user_message": ""}]. *)
Definition empty_request : Dict := <["user_message" := VStr ""]> ∅.

(** A function that is down for its first two calls; it counts its calls
    in [request_count]. *)
Definition flaky_twice : M Dict :=
  fun w =>
    let w' := set_request_count (request_count w + 1) w in
    if request_count w <? 2
    then (Raise (PyError "ConnectionError" "service unavailable"), w')
    else (Ok (<["response" := VStr "done"]> ∅), w').

(** Collaborators that always answer. *)
Definition quiet_env : Env :=
  scripted_env (fun _ => Ok "question_answering|0.9") (fun _ _ _ => Ok ∅).

(** A function that is always down; it counts its calls in
    [request_count]. *)
Definition always_down : M Dict :=
  fun w =>
    (Raise (PyError "ConnectionError" "service unavailable"),
     set_request_count (request_count w + 1) w).

(** One [record_request] call: timestamp, intent, response time, success. *)
Record RequestRecord := {
  rec_timestamp : Q;
  rec_intent : string;
  rec_response_time : Q;
  rec_success : bool
}.

(** The collector after the [record_request] call described by [r]. *)
Definition apply_record (m : MetricsCollector) (r : RequestRecord)
    : MetricsCollector :=
  record_request_at (rec_timestamp r) (rec_intent r) (rec_response_time r)
    (rec_success r) m.

(** The monitor after one more [graph_execution] sample. *)
Definition apply_sample (p : PerformanceMonitor) (s : Measurement)
    : PerformanceMonitor :=
  record_component_time_at (timestamp s) "graph_execution" (duration s) p.

(** [w'] differs from [w] in the collectors by the given records and
    timing samples, applied in order. *)
Definition recorded (recs : list RequestRecord) (samples : list Measurement)
    (w w' : World) : Prop :=
  collector w' = fold_left apply_record recs (collector w) /\
  performance w' = fold_left apply_sample samples (performance w).



(** The error raised by a stage whose data feed is down. *)
Definition feed_down : Exc := AppError DataFetchError "feed down" HIGH 0.

(** The market data feed is down: the stage raises on every call. *)
Definition feed_down_env : Env :=
  scripted_env (fun _ => Ok "market_research|0.9") (fun _ _ _ => Raise feed_down).

(** A market research request. *)
Definition ask_tesla : Dict :=
  <["user_message" := VStr "How is Tesla performing?"]> ∅.

(** The stage is down for the first two attempts and recovers for the
    third (collaborator calls 1 and 3 are the failing stage calls). *)
Definition recovering_env : Env :=
  scripted_env (fun _ => Ok "market_research|0.9")
    (fun _ n _ => if (n <? 4)%nat then Raise feed_down
                  else Ok (<["market_analysis" := VStr "steady"]> ∅)).

(** Requests of one identity, checked one after the other. *)
Fixpoint run_checks (cfg : RateLimiter.Config) (user_id : option string)
    (times : list Q) (request_times : gmap string (list Q))
    : list RateLimiter.Outcome * gmap string (list Q) :=
  match times with
  | [] => ([], request_times)
  | t :: times' =>
      let '(o, rt1) := RateLimiter.rate_limit_check cfg user_id t request_times in
      let '(os, rt2) := run_checks cfg user_id times' rt1 in
      (o :: os, rt2)
  end.

(** Requests of any identities, checked one after the other. *)
Fixpoint run_requests (cfg : RateLimiter.Config)
    (reqs : list (option string * Q))
    (request_times : gmap string (list Q)) : gmap string (list Q) :=
  match reqs with
  | [] => request_times
  | (user_id, t) :: reqs' =>
      run_requests cfg reqs'
        (snd (RateLimiter.rate_limit_check cfg user_id t request_times))
  end.

(** A burst: every request comes less than 60 seconds after each
    timestamp of [earlier] and after each request before it. *)
Fixpoint burst (earlier : list Q) (times : list Q) : Prop :=
  match times with
  | [] => True
  | t :: times' =>
      (forall s, In s earlier -> (t - s < 60)%Q) /\ burst (earlier ++ [t]) times'
  end.

(** No window holds more than the configured number of timestamps. *)
Definition windows_bounded (cfg : RateLimiter.Config)
    (rt : gmap string (list Q)) : Prop :=
  forall uid ws,
    rt !! uid = Some ws ->
    ws = [] \/ Z.of_nat (length ws) <= RateLimiter.max_requests_per_minute cfg.

(** Five requests a minute, rate limiting switched on. *)
Definition five_per_minute : RateLimiter.Config :=
  {| RateLimiter.api_key_required := true;
     RateLimiter.max_requests_per_minute := 5 |}.

(** One request a minute, rate limiting left at its default (off). *)
Definition one_per_minute_switched_off : RateLimiter.Config :=
  {| RateLimiter.api_key_required := false;
     RateLimiter.max_requests_per_minute := 1 |}.

(** A call to one of the two recording methods of the collector. *)
Inductive CollectorCall :=
| CallRecordRequest (ts : Q) (intent : string) (response_time : Q) (success : bool)
| CallRecordError (error_type severity : string).

(** The collector after a call. *)
Definition apply_call (m : MetricsCollector) (c : CollectorCall) : MetricsCollector :=
  match c with
  | CallRecordRequest ts intent rt success => record_request_at ts intent rt success m
  | CallRecordError error_type severity => record_error_on error_type severity m
  end.

(** The three kinds of calls counted below. *)
Definition is_request (c : CollectorCall) : bool :=
  match c with CallRecordRequest _ _ _ _ => true | _ => false end.

Definition is_failed_request (c : CollectorCall) : bool :=
  match c with CallRecordRequest _ _ _ false => true | _ => false end.

Definition is_error (c : CollectorCall) : bool :=
  match c with CallRecordError _ _ => true | _ => false end.

(** The number of calls of a kind. *)
Definition count_calls (p : CollectorCall -> bool) (calls : list CollectorCall) : Z :=
  Z.of_nat (length (List.filter p calls)).

(** The update returned by the router for a given intent and confidence. *)
Definition router_update (intent : string) (confidence : pyfloat) : Dict :=
  <["confidence" := VFloat confidence]> (<["intent" := VStr intent]> ∅).

(** The lookup table of the routing, as the specification words it: the
    three intents with a stage of their own; every other value is
    unmapped. *)
Definition mapped_intent (v : Value) : option Stage :=
  match v with
  | VStr "profile_analysis" => Some profile_analyzer
  | VStr "portfolio_creation" => Some portfolio_builder
  | VStr "market_research" => Some market_researcher
  | _ => None
  end.


(** An environment whose LLM always gives the same reply. *)
Definition replying (content : string) : Env :=
  scripted_env (fun _ => Ok content) (fun _ _ _ => Ok ∅).

(** A float in the closed interval from 0 to 1. *)
Definition in_unit_interval (f : pyfloat) : Prop :=
  match f with
  | Fin q => (0 <= q /\ q <= 1)%Q
  | _ => False
  end.


(** The [n] most recent entries of a history. *)
Definition most_recent {A} (n : nat) (h : list A) : list A :=
  drop (length h - n) h.

(** The response times and the timestamps of the [record_request] calls
    of a sequence, oldest first. *)
Definition response_times_of (calls : list CollectorCall) : list Q :=
  omap (fun c => match c with
                 | CallRecordRequest _ _ rt _ => Some rt
                 | _ => None
                 end) calls.

Definition timestamps_of (calls : list CollectorCall) : list Q :=
  omap (fun c => match c with
                 | CallRecordRequest ts _ _ _ => Some ts
                 | _ => None
                 end) calls.

(** One [record_component_time] call: the component and the sample. *)
Definition apply_timing (p : PerformanceMonitor) (c : string * Measurement)
    : PerformanceMonitor :=
  record_component_time_at (timestamp (snd c)) (fst c) (duration (snd c)) p.

(** The samples recorded for a component by a sequence of calls. *)
Definition samples_of (name : string) (calls : list (string * Measurement))
    : list Measurement :=
  omap (fun c => if bool_decide (fst c = name) then Some (snd c) else None) calls.

(** One [log_error] call: the error and the context. *)
Definition apply_log_error (env : Env) (w : World) (c : Exc * Dict) : World :=
  snd (log_error env (fst c) (snd c) w).



(** Normalising a user id to the identity it is counted under. *)
Definition normalise (req : option string * Q) : option string * Q :=
  (Some (RateLimiter.identity (fst req)), snd req).

(** Points earned by a ratio that is compared with three ascending
    thresholds. *)
Definition band3 (t1 t2 t3 : Q) (p1 p2 p3 : Z) (x : pyfloat) : Z :=
  if float_lt (Fin t1) x then p1
  else if float_lt (Fin t2) x then p2
  else if float_lt (Fin t3) x then p3
  else 0.

(** Points earned by a ratio scored by the interval it falls in. *)
Definition range3 (t1 t2 t3 : Q) (p1 p2 p3 : Z) (x : pyfloat) : Z :=
  if float_lt (Fin 0) x && float_lt x (Fin t1) then p1
  else if float_le (Fin t1) x && float_lt x (Fin t2) then p2
  else if float_le (Fin t2) x && float_lt x (Fin t3) then p3
  else 0.

(** Points earned by the debt ratio. *)
Definition debt_points (x : pyfloat) : Z :=
  if float_lt x (Fin (3 # 10)) then 10
  else if float_lt x (Fin (6 # 10)) then 7
  else if float_lt x (Fin 1) then 4
  else 0.

(** Points earned by the interest coverage. *)
Definition coverage_points (x : pyfloat) : Z :=
  if float_lt (Fin 5) x then 5 else if float_lt (Fin 2) x then 3 else 0.

(** The ratios for which a larger value is never scored lower. *)
Definition higher_is_better : list string :=
  ["ROE"; "Profit_Margin"; "Operating_Margin"; "Current_Ratio";
   "Interest_Coverage"; "Revenue_Growth"; "Earnings_Growth"].

(** The labels of [interpret_rsi], from the bottom of the scale to the top. *)
Definition rsi_rank (label : string) : Z :=
  if String.eqb label "oversold" then 0
  else if String.eqb label "weak" then 1
  else if String.eqb label "neutral" then 2
  else if String.eqb label "strong" then 3
  else 4.

(** [_validate_input] lets the request through. *)
Definition passes_validation (input_data : Dict) : bool :=
  match input_data !! "user_message" with
  | Some (VStr text) =>
      negb (String.length (strip text) =? 0)%nat
      && (String.length text <=? 1000)%nat
  | _ => false
  end.

(** A knowledge base with the keys of the source, whatever its entries. *)
Definition has_source_keys (knowledge_base : gmap string Dict) : Prop :=
  forall key, is_Some (knowledge_base !! key) <-> key ∈ get_all_concepts.

(** A knowledge base with the keys of the source and one-field entries. *)
Definition stub_knowledge_base : gmap string Dict :=
  list_to_map
    (List.map (fun key => (key, <["definition" := VStr key]> ∅)) get_all_concepts).

(** Name the value given to [score] by the next statement of
    [calculate_financial_health_score]. *)
Ltac next_score s :=
  match goal with
  | |- fst (let score := ?a in @?f score) = ?r =>
      change (let score := a in fst (f score) = r); intros s; cbv beta
  end.

(** * Properties *)

(** ** The decorator leaves the collectors alone *)

Lemma handler_frame_refl w : handler_frame w w.
Proof. by repeat split. Qed.

Lemma handler_frame_trans w1 w2 w3 :
  handler_frame w1 w2 -> handler_frame w2 w3 -> handler_frame w1 w3.
Proof.
  intros (?&?&?&?) (?&?&?&?). repeat split; congruence.
Qed.

Lemma wrapper_context_serializable attempt function :
  dict_json_serializable (wrapper_context attempt function) = true.
Proof. destruct attempt; reflexivity. Qed.

Lemma log_error_run env e attempt function w :
  log_error env e (wrapper_context attempt function) w
  = (Ok tt, log_error_effect env e attempt function w).
Proof.
  unfold log_error, bind, json_dumps_error_info.
  cbn [time_time modify fst snd].
  by rewrite wrapper_context_serializable.
Qed.

(** What [log_error] does with any context: the error is counted, and
    the line is logged unless the context cannot be serialised. *)
Lemma log_error_any env e context w :
  log_error env e context w
  = if dict_json_serializable context
    then (Ok tt,
          set_log (log w ++ [{| log_level := log_level_of e;
                                log_event := EvErrorInfo (exc_type_name e) (exc_str e)
                                               (clock env (clock_reads w)) context |}])
                  (error_counted e w))
    else (Raise (PyError "TypeError" "Object of type object is not JSON serializable"),
          error_counted e w).
Proof.
  unfold log_error, bind, json_dumps_error_info.
  cbn [time_time modify fst snd].
  by destruct (dict_json_serializable context).
Qed.

Lemma time_sleep_run d w :
  sleepable d -> time_sleep d w = (Ok tt, set_slept (slept w ++ [d]) w).
Proof.
  intros [H0 Hmax]. unfold time_sleep.
  destruct (Qlt_le_dec sleep_max d) as [H|_].
  { exfalso. eapply Qlt_not_le; eassumption. }
  assert (Hneg : (- sleep_max <= 0)%Q) by (vm_compute; discriminate).
  destruct (Qlt_le_dec d (- sleep_max)) as [H|_].
  { exfalso. apply (Qlt_not_le _ _ H). by apply Qle_trans with 0%Q. }
  destruct (Qlt_le_dec d 0) as [H|_]; [|reflexivity].
  exfalso. eapply Qlt_not_le; eassumption.
Qed.

(** [time.sleep] either records the length or raises, and changes
    nothing else. *)
Lemma time_sleep_cases d w :
  time_sleep d w = (Ok tt, set_slept (slept w ++ [d]) w) \/
  exists e, time_sleep d w = (Raise e, w).
Proof.
  unfold time_sleep.
  destruct (Qlt_le_dec sleep_max d); [right; by eexists|].
  destruct (Qlt_le_dec d (- sleep_max)); [right; by eexists|].
  destruct (Qlt_le_dec d 0); [right; by eexists | by left].
Qed.

Lemma backoffs_sleepable_weaken n n' delay :
  n' <= n -> backoffs_sleepable n delay -> backoffs_sleepable n' delay.
Proof. intros Hle H e attempt Ha. apply H. lia. Qed.

(** A delay that is not negative and whose largest multiple fits is
    accepted after every attempt. *)
Lemma backoffs_sleepable_intro n delay :
  (0 <= delay)%Q -> (delay * inject_Z (2 ^ n) <= sleep_max)%Q ->
  backoffs_sleepable n delay.
Proof.
  intros H0 Hmax e attempt Ha. unfold sleepable, backoff.
  assert (Hp : 1 <= 2 ^ attempt <= 2 ^ n).
  { split; [|apply Z.pow_le_mono_r; lia].
    pose proof (Z.pow_pos_nonneg 2 attempt ltac:(lia) ltac:(lia)). lia. }
  assert (H1 : (1 <= inject_Z (2 ^ attempt))%Q)
    by (change 1%Q with (inject_Z 1); rewrite <- Zle_Qle; lia).
  assert (H2 : (inject_Z (2 ^ attempt) <= inject_Z (2 ^ n))%Q)
    by (rewrite <- Zle_Qle; lia).
  assert (H3 : (delay * inject_Z (2 ^ attempt) <= delay * inject_Z (2 ^ n))%Q).
  { rewrite !(Qmult_comm delay). by apply Qmult_le_compat_r. }
  assert (H4 : (delay <= delay * inject_Z (2 ^ attempt))%Q).
  { rewrite <- (Qmult_1_r delay) at 1. rewrite !(Qmult_comm delay).
    by apply Qmult_le_compat_r. }
  destruct (clause_of e); split; try done.
  - apply Qle_trans with delay; done.
  - by apply Qle_trans with (delay * inject_Z (2 ^ n))%Q.
  - apply Qle_trans with (delay * inject_Z (2 ^ attempt))%Q; [done|].
    by apply Qle_trans with (delay * inject_Z (2 ^ n))%Q.
  - apply Qle_trans with (delay * inject_Z (2 ^ attempt))%Q; [done|].
    by apply Qle_trans with (delay * inject_Z (2 ^ n))%Q.
  - apply Qle_trans with (delay * inject_Z (2 ^ attempt))%Q; [done|].
    by apply Qle_trans with (delay * inject_Z (2 ^ n))%Q.
Qed.

(** The delay and budget of [invoke]. *)
Lemma invoke_backoffs_sleepable : backoffs_sleepable 2 1.
Proof. apply backoffs_sleepable_intro; vm_compute; discriminate. Qed.

Lemma log_error_frame env e attempt function w :
  handler_frame w (log_error_effect env e attempt function w).
Proof. by repeat split. Qed.

Lemma retried_frame env delay fname attempt e w :
  handler_frame w (retried_effect env delay fname attempt e w).
Proof. by repeat split. Qed.

Lemma retry_loop_ok env retries delay fname func todo attempt last w v w1 :
  func w = (Ok v, w1) ->
  retry_loop env retries delay fname func (S todo) attempt last w
  = (Ok (Returned v), w1).
Proof. intros H. simpl. by rewrite H. Qed.

(** The iteration of a failure that may be retried, whatever
    [time.sleep] makes of the delay. *)
Lemma retry_loop_backoff env retries delay fname func todo attempt last w e w1 :
  func w = (Raise e, w1) ->
  is_validation_error e = false ->
  attempt < retries ->
  retry_loop env retries delay fname func (S todo) attempt last w
  = match time_sleep (backoff delay e attempt)
            (log_error_effect env e (Some attempt) fname w1) with
    | (Ok _, w2) =>
        retry_loop env retries delay fname func todo (attempt + 1) (Some e) w2
    | (Raise e', w2) => (Raise e', w2)
    end.
Proof.
  intros Hf Hv Hlt. cbn [retry_loop]. rewrite Hf.
  assert (Hb : (attempt <? retries) = true) by (apply Z.ltb_lt; lia).
  unfold backoff.
  destruct e as [[] ? ? ?|]; cbn [clause_of is_validation_error] in *;
    try discriminate;
    unfold bind;
    rewrite (log_error_run env _ (Some attempt) fname w1), Hb; reflexivity.
Qed.

Lemma retry_loop_retry env retries delay fname func todo attempt last w e w1 :
  func w = (Raise e, w1) ->
  is_validation_error e = false ->
  attempt < retries ->
  sleepable (backoff delay e attempt) ->
  retry_loop env retries delay fname func (S todo) attempt last w
  = retry_loop env retries delay fname func todo (attempt + 1) (Some e)
      (retried_effect env delay fname attempt e w1).
Proof.
  intros Hf Hv Hlt Hs.
  rewrite (retry_loop_backoff _ _ _ _ _ _ _ _ _ _ _ Hf Hv Hlt).
  by rewrite (time_sleep_run _ _ Hs).
Qed.

(** The iteration of a failure whose backoff [time.sleep] rejects: the
    error of [time.sleep] leaves the loop. *)
Lemma retry_loop_sleep_raises env retries delay fname func todo attempt last w e w1 :
  func w = (Raise e, w1) ->
  is_validation_error e = false ->
  attempt < retries ->
  ~ sleepable (backoff delay e attempt) ->
  exists e',
    retry_loop env retries delay fname func (S todo) attempt last w
    = (Raise e', log_error_effect env e (Some attempt) fname w1).
Proof.
  intros Hf Hv Hlt Hs.
  rewrite (retry_loop_backoff _ _ _ _ _ _ _ _ _ _ _ Hf Hv Hlt).
  destruct (time_sleep_cases (backoff delay e attempt)
              (log_error_effect env e (Some attempt) fname w1)) as [H|[e' H]];
    rewrite H; [|by eexists].
  exfalso. apply Hs. unfold time_sleep in H. unfold sleepable.
  destruct (Qlt_le_dec sleep_max (backoff delay e attempt)); [discriminate|].
  destruct (Qlt_le_dec (backoff delay e attempt) (- sleep_max)); [discriminate|].
  destruct (Qlt_le_dec (backoff delay e attempt) 0); [discriminate|]. done.
Qed.

Lemma sleepable_dec d : sleepable d \/ ~ sleepable d.
Proof.
  unfold sleepable.
  destruct (Qlt_le_dec d 0) as [H|H].
  { right. intros [H0 _]. eapply Qlt_not_le; eassumption. }
  destruct (Qlt_le_dec sleep_max d) as [H'|H'].
  { right. intros [_ H1]. eapply Qlt_not_le; eassumption. }
  by left.
Qed.

Lemma retry_loop_last env retries delay fname func todo attempt last w e w1 :
  func w = (Raise e, w1) ->
  is_validation_error e = false ->
  ~ attempt < retries ->
  retry_loop env retries delay fname func (S todo) attempt last w
  = (Ok (Broke (Some e)), log_error_effect env e (Some attempt) fname w1).
Proof.
  intros Hf Hv Hlt. cbn [retry_loop]. rewrite Hf.
  assert (Hb : (attempt <? retries) = false) by (apply Z.ltb_ge; lia).
  destruct e as [[] ? ? ?|]; cbn [clause_of is_validation_error] in *;
    try discriminate;
    unfold bind;
    rewrite (log_error_run env _ (Some attempt) fname w1), Hb; reflexivity.
Qed.

Lemma retry_loop_validation env retries delay fname func todo attempt last w e w1 :
  func w = (Raise e, w1) ->
  is_validation_error e = true ->
  retry_loop env retries delay fname func (S todo) attempt last w
  = (Ok (Broke last), log_error_effect env e None fname w1).
Proof.
  intros Hf Hv. cbn [retry_loop]. rewrite Hf.
  destruct e as [[] ? ? ?|]; cbn [clause_of is_validation_error] in *;
    try discriminate.
  unfold bind. rewrite (log_error_run env _ None fname w1). reflexivity.
Qed.

(** ** Retrying until success, and running out of attempts *)

Section Retry.
Variable env : Env.
Variables (retries : Z) (delay : Q) (fname : string) (func : M Dict).

(** [count] is any counter kept by the wrapped function (for [invoke]:
    the number of metrics records) that the decorator itself does not
    write and that every call of the function advances by one. *)
Variable count : World -> Z.
Hypothesis count_frame : forall w w', handler_frame w w' -> count w' = count w.
Hypothesis count_call : forall w, count (snd (func w)) = count w + 1.



End Retry.

(** ** The graph only talks to its collaborators *)

Lemma only_ext_refl w : only_ext w w.
Proof. exists (ext_calls w). by destruct w. Qed.

Lemma only_ext_trans w1 w2 w3 :
  only_ext w1 w2 -> only_ext w2 w3 -> only_ext w1 w3.
Proof. intros [c ->] [c' ->]. by exists c'. Qed.

Lemma external_only_ext {A} (answer : nat -> Res A) w :
  only_ext w (snd (external answer w)).
Proof. by eexists. Qed.

Lemma router_node_only_ext env state w :
  only_ext w (snd (router_node env state w)).
Proof.
  unfold router_node. destruct (state !! "user_message") as [um|].
  - unfold bind, external. simpl.
    destruct (llm env (ext_calls w) um) as [content|e]; simpl.
    + destruct (parse_reply env content). by eexists.
    + by eexists.
  - apply only_ext_refl.
Qed.

Lemma run_node_only_ext env n state w :
  only_ext w (snd (run_node env n state w)).
Proof.
  destruct n; simpl.
  - apply router_node_only_ext.
  - by eexists.
  - apply only_ext_refl.
Qed.

Lemma run_nodes_only_ext env fuel :
  forall n state w, only_ext w (snd (run_nodes env fuel n state w)).
Proof.
  induction fuel as [|fuel IH]; intros n state w; simpl.
  - apply only_ext_refl.
  - assert (Hstep : forall n0, n0 <> NEnd ->
      only_ext w (snd ((update <- run_node env n0 state ;;
                        match next_node n0 (declared update ∪ state) with
                        | Some n' =>
                            r <- run_nodes env fuel n' (declared update ∪ state) ;;
                            ret (fst r, n0 :: snd r)
                        | None => raise (PyError "ValueError" "unknown route")
                        end) w))).
    { intros n0 _. unfold bind.
      pose proof (run_node_only_ext env n0 state w) as H1.
      destruct (run_node env n0 state w) as [[update|e] w1]; simpl in *; [|done].
      destruct (next_node n0 (declared update ∪ state)) as [n'|]; [|done].
      pose proof (IH n' (declared update ∪ state) w1) as H2.
      destruct (run_nodes env fuel n' (declared update ∪ state) w1) as [[r|e] w2];
        simpl in *; by eapply only_ext_trans. }
    destruct n; [by apply Hstep | by apply Hstep | apply only_ext_refl].
Qed.

Lemma run_graph_only_ext env fuel n input w :
  only_ext w (snd (run_graph env fuel n input w)).
Proof. apply run_nodes_only_ext. Qed.

Lemma graph_invoke_only_ext env input w :
  only_ext w (snd (graph_invoke env input w)).
Proof.
  unfold graph_invoke, bind.
  pose proof (run_graph_only_ext env recursion_limit NRouter input w) as H.
  by destruct (run_graph env recursion_limit NRouter input w) as [[r|e] w1].
Qed.

(** ** Counters *)

Lemma get0_bump_eq k c : get0 (bump k c) k = get0 c k + 1.
Proof. unfold get0, bump. by rewrite lookup_insert_eq. Qed.

Lemma get0_bump_ne k k' c : k <> k' -> get0 (bump k c) k' = get0 c k'.
Proof. intros H. unfold get0, bump. by rewrite lookup_insert_ne. Qed.

Lemma intent_key_ne intent k :
  String.get 0 k <> Some "i"%char -> "intent_" +:+ intent <> k.
Proof. intros H <-. by apply H. Qed.

Lemma counters_metrics_append k x m :
  counters (metrics_append k x m) = counters m.
Proof. reflexivity. Qed.

(** The counters after one [record_request]. *)
Lemma record_request_counters ts intent rt success m :
  counters (record_request_at ts intent rt success m)
  = bump (if success then "successful_requests" else "failed_requests")
      (bump ("intent_" +:+ intent) (bump "total_requests" (counters m))).
Proof. by destruct success. Qed.

Lemma record_request_total ts intent rt success m :
  get0 (counters (record_request_at ts intent rt success m)) "total_requests"
  = get0 (counters m) "total_requests" + 1.
Proof.
  rewrite record_request_counters.
  rewrite get0_bump_ne by (by destruct success).
  rewrite get0_bump_ne by (by apply intent_key_ne).
  apply get0_bump_eq.
Qed.

Lemma record_request_failed ts intent rt success m :
  get0 (counters (record_request_at ts intent rt success m)) "failed_requests"
  = get0 (counters m) "failed_requests" + (if success then 0 else 1).
Proof.
  rewrite record_request_counters. destruct success.
  - rewrite !get0_bump_ne; [lia | done | by apply intent_key_ne | done].
  - rewrite get0_bump_eq, !get0_bump_ne; [done | done | by apply intent_key_ne].
Qed.


Lemma record_request_error_counters ts intent rt success m k :
  error_counter_key k ->
  get0 (counters (record_request_at ts intent rt success m)) k
  = get0 (counters m) k.
Proof.
  intros Hk. rewrite record_request_counters.
  rewrite !get0_bump_ne; [done | | |].
  - destruct Hk as [-> | [H | [H1 H2]]]; [done | |]; intros <-; discriminate.
  - apply intent_key_ne. destruct Hk as [-> | [H | [H1 H2]]]; [done | |]; congruence.
  - destruct Hk as [-> | [H | [H1 H2]]]; destruct success; try done;
      intros <-; discriminate.
Qed.

(** ** The router and the run of the graph *)

Lemma router_node_run env state um content w :
  state !! "user_message" = Some um ->
  llm env (ext_calls w) um = Ok content ->
  router_node env state w
  = (Ok (router_update (fst (parse_reply env content))
                       (snd (parse_reply env content))),
     set_ext_calls (S (ext_calls w)) w).
Proof.
  intros Hum Hllm. unfold router_node, bind, external. rewrite Hum. simpl.
  rewrite Hllm. by destruct (parse_reply env content).
Qed.

Lemma router_update_intent intent confidence (state : Dict) :
  dict_get (router_update intent confidence ∪ state) "intent"
           (VStr "question_answering")
  = VStr intent.
Proof.
  unfold dict_get, router_update.
  erewrite lookup_union_Some_l; [done|].
  rewrite lookup_insert_ne by done. by rewrite lookup_insert_eq.
Qed.

Lemma value_is_str_true v s : value_is_str v s = true <-> v = VStr s.
Proof.
  destruct v; simpl; try (split; [discriminate | congruence]).
  rewrite bool_decide_eq_true. split; congruence.
Qed.

(** [route_decision] by cases on the intent found in the state. *)
Lemma route_decision_cases (state : Dict) :
  let intent := dict_get state "intent" (VStr "question_answering") in
  (intent = VStr "profile_analysis" /\ route_decision state = "profile_analyzer") \/
  (intent = VStr "portfolio_creation" /\ route_decision state = "portfolio_builder") \/
  (intent = VStr "market_research" /\ route_decision state = "market_researcher") \/
  (intent <> VStr "profile_analysis" /\ intent <> VStr "portfolio_creation" /\
   intent <> VStr "market_research" /\ route_decision state = "question_answerer").
Proof.
  intros intent. unfold route_decision. fold intent.
  destruct (value_is_str intent "profile_analysis") eqn:H1.
  { left. by apply value_is_str_true in H1. }
  destruct (value_is_str intent "portfolio_creation") eqn:H2.
  { right; left. by apply value_is_str_true in H2. }
  destruct (value_is_str intent "market_research") eqn:H3.
  { right; right; left. by apply value_is_str_true in H3. }
  right; right; right. split_conj; try done;
    intros H; apply value_is_str_true in H; congruence.
Qed.

Lemma route_decision_stage (state : Dict) :
  exists s, route_decision state = stage_name s /\
            next_node NRouter state = Some (NStage s).
Proof.
  destruct (route_decision_cases state) as [[_ H]|[[_ H]|[[_ H]|(_ & _ & _ & H)]]];
    simpl; rewrite H.
  - by exists profile_analyzer.
  - by exists portfolio_builder.
  - by exists market_researcher.
  - by exists question_answerer.
Qed.

Lemma stage_name_inj s1 s2 : stage_name s1 = stage_name s2 -> s1 = s2.
Proof. by destruct s1, s2. Qed.

(** The declared part of a dictionary, key by key. *)
Lemma declared_lookup (d : Dict) k :
  declared d !! k = if decide (k ∈ state_keys) then d !! k else None.
Proof.
  unfold declared. destruct (decide (k ∈ state_keys)) as [Hk|Hk].
  - destruct (d !! k) as [v|] eqn:Hd.
    + by apply map_lookup_filter_Some.
    + apply map_lookup_filter_None. by left.
  - apply map_lookup_filter_None. right. intros v _. exact Hk.
Qed.

Lemma declared_lookup_in (d : Dict) k :
  k ∈ state_keys -> declared d !! k = d !! k.
Proof. intros Hk. by rewrite declared_lookup, decide_True. Qed.

Lemma declared_lookup_out (d : Dict) k :
  k ∉ state_keys -> declared d !! k = None.
Proof. intros Hk. by rewrite declared_lookup, decide_False. Qed.

Lemma user_message_declared : "user_message" ∈ state_keys.
Proof. apply list_elem_of_here. Qed.

Lemma intent_declared : "intent" ∈ state_keys.
Proof. do 2 apply list_elem_of_further. apply list_elem_of_here. Qed.

Lemma confidence_declared : "confidence" ∈ state_keys.
Proof. do 3 apply list_elem_of_further. apply list_elem_of_here. Qed.

(** The router's update only has declared keys. *)
Lemma declared_router_update intent confidence :
  declared (router_update intent confidence) = router_update intent confidence.
Proof.
  apply map_filter_id. intros k v Hk. unfold router_update in Hk.
  apply lookup_insert_Some in Hk as [[<- _]|[_ Hk]]; [apply confidence_declared|].
  apply lookup_insert_Some in Hk as [[<- _]|[_ Hk]]; [apply intent_declared|].
  by rewrite lookup_empty in Hk.
Qed.

(** The router reads [user_message] only, a declared key. *)
Lemma router_node_declared env input w :
  router_node env (declared input) w = router_node env input w.
Proof.
  unfold router_node. by rewrite (declared_lookup_in input _ user_message_declared).
Qed.

Lemma router_node_update env state w update w1 :
  router_node env state w = (Ok update, w1) ->
  exists intent confidence, update = router_update intent confidence.
Proof.
  unfold router_node. destruct (state !! "user_message") as [um|]; [|done].
  unfold bind, external. simpl.
  destruct (llm env (ext_calls w) um) as [content|e]; [|done]. simpl.
  destruct (parse_reply env content) as [i c]. intros [= <- _]. by exists i, c.
Qed.

(** A router that returns has made one collaborator call. *)
Lemma router_node_world env state w update w1 :
  router_node env state w = (Ok update, w1) ->
  w1 = set_ext_calls (S (ext_calls w)) w.
Proof.
  unfold router_node. destruct (state !! "user_message") as [um|]; [|done].
  unfold bind, external. simpl.
  destruct (llm env (ext_calls w) um) as [content|e]; [|done]. simpl.
  destruct (parse_reply env content) as [i c]. by intros [= _ <-].
Qed.

(** Once the router has written the intent, the route does not depend on
    the rest of the state. *)
Lemma route_decision_router_update intent confidence (state state' : Dict) :
  route_decision (router_update intent confidence ∪ state)
  = route_decision (router_update intent confidence ∪ state').
Proof. unfold route_decision. by rewrite !router_update_intent. Qed.

(** The whole run of the graph, three nodes deep. *)
Lemma run_graph_unfold env fuel input w :
  run_graph env (S (S (S fuel))) NRouter input w
  = match router_node env input w with
    | (Raise e, w1) => (Raise e, w1)
    | (Ok update, w1) =>
        let state := update ∪ declared input in
        match next_node NRouter state with
        | Some (NStage s) =>
            match stage_node env s (ext_calls w1) state with
            | Ok update' =>
                (Ok (declared update' ∪ state, [NRouter; NStage s]),
                 set_ext_calls (S (ext_calls w1)) w1)
            | Raise e => (Raise e, set_ext_calls (S (ext_calls w1)) w1)
            end
        | _ => (Raise (PyError "ValueError" "unknown route"), w1)
        end
    end.
Proof.
  unfold run_graph. cbn [run_nodes run_node]. unfold bind.
  rewrite router_node_declared.
  destruct (router_node env input w) as [[update|e] w1] eqn:Hr; [|done].
  destruct (router_node_update _ _ _ _ _ Hr) as (i & c & ->).
  rewrite declared_router_update. cbv zeta.
  destruct (route_decision_stage (router_update i c ∪ declared input))
    as (s & _ & Hnext).
  rewrite Hnext. cbn [run_node next_node]. unfold external.
  by destruct (stage_node env s (ext_calls w1) (router_update i c ∪ declared input)).
Qed.

(** ** One attempt of [invoke] *)

Lemma invoke_body_invalid env input text w :
  input !! "user_message" = Some (VStr text) ->
  invalid_text text ->
  exists ts w',
    invoke_body env input w
    = (Raise (AppError ValidationError (validation_message text) MEDIUM ts), w') /\
    request_count w' = request_count w + 1 /\
    slept w' = slept w /\
    error_handler w' = error_handler w /\
    performance w' = performance w /\
    ext_calls w' = ext_calls w /\
    collector w' =
      record_request_at (clock env (3 + clock_reads w)) "error"
        (clock env (2 + clock_reads w) - clock env (clock_reads w)) false
        (collector w).
Proof.
  intros Hum Hinv.
  unfold invoke_body, bind, try_except, dict_get, lift_res, _validate_input,
    validation_message.
  rewrite Hum. simpl.
  destruct (String.length (strip text) =? 0)%nat eqn:Hblank.
  - simpl. do 2 eexists. split; [reflexivity|]. repeat split.
  - destruct (1000 <? String.length text)%nat eqn:Hlong.
    + simpl. do 2 eexists. split; [reflexivity|]. repeat split.
    + exfalso. apply Nat.eqb_neq in Hblank. apply Nat.ltb_ge in Hlong.
      destruct Hinv; lia.
Qed.

Lemma invoke_body_valid env input text w :
  input !! "user_message" = Some (VStr text) ->
  valid_text text ->
  let w_in := graph_entry env (VStr (str_prefix 100 text)) w in
  exists r c w',
    graph_invoke env (enhanced_input env input w) w_in = (r, set_ext_calls c w_in) /\
    invoke_body env input w = (stamped env w r, w') /\
    request_count w' = request_count w + 1 /\
    slept w' = slept w /\
    error_handler w' = error_handler w /\
    ext_calls w' = c /\
    clock_reads w' = (6 + clock_reads w)%nat /\
    performance w' =
      record_component_time_at (clock env (3 + clock_reads w)) "graph_execution"
        (clock env (2 + clock_reads w) - clock env (1 + clock_reads w))
        (performance w) /\
    collector w' =
      record_request_at (clock env (5 + clock_reads w)) (recorded_intent env r)
        (clock env (4 + clock_reads w) - clock env (clock_reads w)) (is_ok r)
        (collector w).
Proof.
  intros Hum [Hblank Hlong] w_in.
  pose proof (graph_invoke_only_ext env (enhanced_input env input w) w_in) as [c Hc].
  destruct (graph_invoke env (enhanced_input env input w) w_in) as [r w3] eqn:Hg.
  simpl in Hc. subst w3.
  exists r, c.
  unfold invoke_body, bind, try_except, dict_get, lift_res, _validate_input.
  rewrite Hum. simpl.
  apply Nat.eqb_neq in Hblank. apply Nat.ltb_ge in Hlong.
  rewrite Hblank, Hlong. simpl.
  unfold time_component, bind, try_finally. simpl.
  fold (attempt_request_id env w). fold (enhanced_input env input w).
  change (set_clock_reads _ (set_log _ _)) with w_in.
  rewrite Hg.
  destruct r as [result|e]; simpl.
  - eexists. split; [reflexivity|]. repeat split.
  - eexists. split; [reflexivity|]. repeat split.
Qed.

(** ** Validation failures under the decorator *)

(** Whatever text fails validation, the decorated [invoke] makes a single
    attempt, does not sleep, counts the [ValidationError] once, and then
    hands out the configured fallback instead of raising. *)
Lemma invoke_invalid_returns_fallback env input text w :
  input !! "user_message" = Some (VStr text) ->
  invalid_text text ->
  exists w',
    invoke env input w = (Ok invoke_fallback, w') /\
    request_count w' = request_count w + 1 /\
    slept w' = slept w /\
    error_counts (error_handler w')
    = bump ("ValidationError:" +:+ str_prefix 100 (validation_message text))
        (error_counts (error_handler w)) /\
    get0 (counters (collector w')) "failed_requests"
    = get0 (counters (collector w)) "failed_requests" + 1.
Proof.
  intros Hum Hinv.
  destruct (invoke_body_invalid env input text w Hum Hinv)
    as (ts & w1 & Hrun & Hrc & Hsl & Heh & _ & _ & Hcol).
  unfold invoke, with_error_handling, bind.
  change (Z.to_nat (2 + 1)) with 3%nat.
  rewrite (retry_loop_validation _ _ _ _ _ _ _ _ _ _ _ Hrun eq_refl).
  change (dict_truthy invoke_fallback) with true. simpl.
  eexists. split; [reflexivity|]. simpl.
  rewrite Hrc, Hsl, Heh, Hcol. repeat split.
  by rewrite record_request_failed.
Qed.

Lemma empty_request_error_key :
  "ValidationError:" +:+ str_prefix 100 (validation_message "")
  = "ValidationError:user_message cannot be empty".
Proof. reflexivity. Qed.

(** C1. The request [{"user_message": ""}] fails validation on the first
    attempt and is not retried (one attempt, nothing slept, one
    [ValidationError] counted), but the caller does not receive the
    rejection: the decorated [invoke] returns the configured fallback
    response. *)
Theorem invoke_empty_message_returns_fallback (env : Env) (w : World) :
  exists w',
    invoke env empty_request w = (Ok invoke_fallback, w') /\
    request_count w' = request_count w + 1 /\
    slept w' = slept w /\
    error_counts (error_handler w')
    = bump "ValidationError:user_message cannot be empty"
        (error_counts (error_handler w)).
Proof.
  destruct (invoke_invalid_returns_fallback env empty_request "" w)
    as (w' & Hrun & Hrc & Hsl & Heh & _).
  - reflexivity.
  - left; reflexivity.
  - rewrite empty_request_error_key in Heh. exists w'.
    repeat split; assumption.
Qed.

(** ** Retry budget: every attempt fails *)




(** ** What a run of [invoke] leaves in the collectors *)


Lemma recorded_cons r s recs samples w w1 w2 :
  collector w1 = apply_record (collector w) r ->
  performance w1 = apply_sample (performance w) s ->
  recorded recs samples w1 w2 ->
  recorded (r :: recs) (s :: samples) w w2.
Proof.
  intros Hc Hp [Hc' Hp']. split; simpl; congruence.
Qed.


Lemma is_ok_stamped env w r : is_ok (stamped env w r) = is_ok r.
Proof. by destruct r. Qed.



(** ** Health checks are requests *)





Lemma record_request_window_size ts intent rt success m :
  window_size (record_request_at ts intent rt success m) = window_size m.
Proof. by destruct success. Qed.

Lemma record_request_response_times ts intent rt success m :
  getl (metrics (record_request_at ts intent rt success m)) "response_times"
  = deque_append (window_size m) rt (getl (metrics m) "response_times").
Proof.
  assert (H : metrics (record_request_at ts intent rt success m)
              = metrics (metrics_append "requests_per_minute" ts
                           (metrics_append "response_times" rt m)))
    by (by destruct success).
  rewrite H. unfold metrics_append, getl. simpl.
  rewrite lookup_insert_ne by done. by rewrite lookup_insert_eq.
Qed.

Lemma record_request_timestamps ts intent rt success m :
  getl (metrics (record_request_at ts intent rt success m)) "requests_per_minute"
  = deque_append (window_size m) ts (getl (metrics m) "requests_per_minute").
Proof.
  assert (H : metrics (record_request_at ts intent rt success m)
              = metrics (metrics_append "requests_per_minute" ts
                           (metrics_append "response_times" rt m)))
    by (by destruct success).
  rewrite H. unfold metrics_append, getl. simpl.
  rewrite lookup_insert_eq. simpl. by rewrite lookup_insert_ne.
Qed.











(** ** Retry budget: success within the budget *)







(** The run with the delay 1, evaluated: the result is the function's,
    two backoff delays were slept and two errors were counted. *)
Example flaky_twice_run :
  let '(r, w) := with_error_handling quiet_env 2 1 None "flaky_twice"
                   flaky_twice (initial_world quiet_env) in
  r = Ok (<["response" := VStr "done"]> ∅) /\
  request_count w = 3 /\
  slept w = [1%Q; 1%Q] /\
  get0 (error_counts (error_handler w)) "ConnectionError:service unavailable" = 2.
Proof. vm_compute. repeat split. Qed.

(** ** Where a failed attempt is recorded *)

Lemma text_valid_or_invalid text : valid_text text \/ invalid_text text.
Proof.
  unfold valid_text, invalid_text.
  destruct (Nat.eq_dec (String.length (strip text)) 0%nat); [by right; left|].
  destruct (Nat.le_gt_cases (String.length text) 1000%nat); [by left | right; right; lia].
Qed.

Lemma record_request_intent ts intent rt success m :
  get0 (counters (record_request_at ts intent rt success m)) ("intent_" +:+ intent)
  = get0 (counters m) ("intent_" +:+ intent) + 1.
Proof.
  rewrite record_request_counters.
  rewrite get0_bump_ne by (destruct success; intros H; discriminate H).
  rewrite get0_bump_eq.
  rewrite get0_bump_ne by (intros H; discriminate H). done.
Qed.

(** A failing attempt on a textual request leaves exactly one
    [record_request("error", _, success=False)] and does not touch the
    error handler. *)
Lemma invoke_body_failure env input text w e w1 :
  input !! "user_message" = Some (VStr text) ->
  invoke_body env input w = (Raise e, w1) ->
  exists ts rt,
    collector w1 = record_request_at ts "error" rt false (collector w) /\
    error_handler w1 = error_handler w.
Proof.
  intros Hum Hrun.
  destruct (text_valid_or_invalid text) as [Hv|Hinv].
  - destruct (invoke_body_valid env input text w Hum Hv)
      as (r & c & w' & _ & Hrun' & _ & _ & Heh & _ & _ & _ & Hc).
    rewrite Hrun in Hrun'. destruct r as [result|e']; [discriminate|].
    injection Hrun' as _ ->. eauto.
  - destruct (invoke_body_invalid env input text w Hum Hinv)
      as (ts & w' & Hrun' & _ & _ & Heh & _ & _ & Hc).
    rewrite Hrun in Hrun'. injection Hrun' as _ ->. eauto.
Qed.

(** Every attempt of [invoke] on a textual request writes one metrics
    record. *)
Lemma invoke_body_counts_request env input text w :
  input !! "user_message" = Some (VStr text) ->
  get0 (counters (collector (snd (invoke_body env input w)))) "total_requests"
  = get0 (counters (collector w)) "total_requests" + 1.
Proof.
  intros Hum. destruct (text_valid_or_invalid text) as [Hv|Hinv].
  - destruct (invoke_body_valid env input text w Hum Hv)
      as (r & c & w' & _ & Hrun & _ & _ & _ & _ & _ & _ & Hc).
    rewrite Hrun. simpl. rewrite Hc. apply record_request_total.
  - destruct (invoke_body_invalid env input text w Hum Hinv)
      as (ts & w' & Hrun & _ & _ & _ & _ & _ & Hc).
    rewrite Hrun. simpl. rewrite Hc. apply record_request_total.
Qed.

(** One iteration of the decorator's loop whose attempt fails with [e]. *)
Lemma failed_iteration env retries delay fname func attempt last w e w1 :
  func w = (Raise e, w1) ->
  exists ctx w2,
    snd (retry_loop env retries delay fname func 1 attempt last w) = w2 /\
    handler_frame w1 w2 /\
    error_counts (error_handler w2)
    = bump (error_key e) (error_counts (error_handler w1)) /\
    log w2 = log w1 ++ [{| log_level := log_level_of e;
                           log_event := EvErrorInfo (exc_type_name e) (exc_str e)
                                          (clock env (clock_reads w1))
                                          (wrapper_context ctx fname) |}].
Proof.
  intros Hrun. destruct (is_validation_error e) eqn:Hval.
  - rewrite (retry_loop_validation _ _ _ _ _ _ _ _ _ _ _ Hrun Hval).
    exists None. eexists. split; [reflexivity|]. by repeat split.
  - destruct (Z.lt_ge_cases attempt retries) as [Hlt|Hge].
    + destruct (sleepable_dec (backoff delay e attempt)) as [Hs|Hs].
      * rewrite (retry_loop_retry _ _ _ _ _ _ _ _ _ _ _ Hrun Hval Hlt Hs).
        exists (Some attempt). eexists. split; [reflexivity|]. by repeat split.
      * destruct (retry_loop_sleep_raises env retries delay fname func 0%nat
                    attempt last w e w1 Hrun Hval Hlt Hs) as [e' ->].
        exists (Some attempt). eexists. split; [reflexivity|]. by repeat split.
    + rewrite (retry_loop_last _ _ _ _ _ _ _ _ _ _ _ Hrun Hval) by lia.
      exists (Some attempt). eexists. split; [reflexivity|]. by repeat split.
Qed.

(** C6 (amended). A failure raised by an attempt of [invoke] on a textual
    request is recorded once by the metrics collector as a failed request
    ([total_requests], [failed_requests] and [intent_error] advance by
    one; no counter of [record_error] changes) and once in the error
    handler's frequency map, under the key made of the error type and the
    first 100 characters of its message.  The severity is stored in
    neither; it selects the level of the one log line that is written.
    Below, [retry_loop] with one iteration to run is one pass through the
    body of the decorator's loop. *)
Theorem failed_attempt_recorded_once (env : Env) (retries : Z) (delay : Q)
    (fname : string) (input : Dict) (text : string) (attempt : Z)
    (last : option Exc) (w : World) (e : Exc) (w1 : World) :
  input !! "user_message" = Some (VStr text) ->
  invoke_body env input w = (Raise e, w1) ->
  let w2 := snd (retry_loop env retries delay fname (invoke_body env input)
                   1 attempt last w) in
  get0 (counters (collector w2)) "total_requests"
  = get0 (counters (collector w)) "total_requests" + 1 /\
  get0 (counters (collector w2)) "failed_requests"
  = get0 (counters (collector w)) "failed_requests" + 1 /\
  get0 (counters (collector w2)) "intent_error"
  = get0 (counters (collector w)) "intent_error" + 1 /\
  (forall k, error_counter_key k ->
             get0 (counters (collector w2)) k = get0 (counters (collector w)) k) /\
  error_counts (error_handler w2)
  = bump (error_key e) (error_counts (error_handler w)) /\
  exists ts ctx,
    log w2 = log w1 ++ [{| log_level := log_level_of e;
                           log_event := EvErrorInfo (exc_type_name e) (exc_str e)
                                          ts (wrapper_context ctx fname) |}].
Proof.
  intros Hum Hrun w2.
  destruct (invoke_body_failure env input text w e w1 Hum Hrun)
    as (ts & rt & Hc & Heh).
  destruct (failed_iteration env retries delay fname _ attempt last w e w1 Hrun)
    as (ctx & w2' & Hw2 & (_ & Hc2 & _ & _) & Hec & Hlog).
  fold w2 in Hw2. subst w2'. rewrite Hc2, Hc, Hec, Heh.
  split; [apply record_request_total|].
  split; [apply record_request_failed|].
  split; [apply (record_request_intent ts "error" rt false)|].
  split; [intros k Hk; by apply record_request_error_counters|].
  split; [reflexivity|]. eauto.
Qed.

Lemma failed_attempt_recorded_once_witness :
  let w := initial_world feed_down_env in
  let w2 := snd (retry_loop feed_down_env 2 1 "invoke"
                   (invoke_body feed_down_env ask_tesla) 1 0 None w) in
  get0 (counters (collector w2)) "failed_requests" = 0 + 1 /\
  get0 (counters (collector w2)) "total_errors" = 0 /\
  error_counts (error_handler w2) = bump (error_key feed_down) ∅.
Proof.
  intros w w2.
  destruct (failed_attempt_recorded_once feed_down_env 2 1 "invoke" ask_tesla
              "How is Tesla performing?" 0 None w feed_down
              (snd (invoke_body feed_down_env ask_tesla w)))
    as (_ & Hfailed & _ & Herr & Hcounts & _).
  - reflexivity.
  - vm_compute. reflexivity.
  - split; [exact Hfailed|]. split; [|exact Hcounts].
    apply (Herr "total_errors"). by left.
Defined.

(** A request whose [user_message] cannot be sliced fails before the
    guarded block of [invoke]: the three attempts are counted by the error
    handler but leave no metrics record. *)
Example unsliceable_message_is_not_recorded :
  let w := snd (invoke quiet_env (<["user_message" := VInt 5]> ∅)
                  (initial_world quiet_env)) in
  request_count w = 3 /\
  get0 (error_counts (error_handler w))
       "TypeError:'int' object is not subscriptable" = 3 /\
  get0 (counters (collector w)) "total_requests" = 0.
Proof. intros w. split_conj; vm_compute; reflexivity. Qed.

(** C6 as stated fails: with the feed down, [invoke] fails three times
    (three failed requests, three entries in the error handler's map), yet
    the collector's error counters, which only [record_error] writes,
    record none of them, and the severity of the errors is kept nowhere. *)
Lemma failures_bypass_error_counters :
  let w := snd (invoke feed_down_env ask_tesla (initial_world feed_down_env)) in
  get0 (counters (collector w)) "failed_requests" = 3 /\
  get0 (error_counts (error_handler w)) "DataFetchError:feed down" = 3 /\
  get0 (counters (collector w)) "total_errors" = 0 /\
  get0 (counters (collector w)) "error_DataFetchError" = 0 /\
  get0 (counters (collector w)) "severity_high" = 0 /\
  get0 (counters (collector w)) "total_errors" <> 3.
Proof. intros w. split_conj; vm_compute; (reflexivity || discriminate). Qed.

(** Scenario: [retries = 2], the stage fails on attempts 1 and 2 and
    succeeds on attempt 3.  The result is the stage's, three requests and
    three timing samples are recorded, and no fallback is logged. *)
Example recovers_on_third_attempt :
  let run := invoke recovering_env ask_tesla (initial_world recovering_env) in
  let w := snd run in
  match fst run with
  | Ok d => d !! "market_analysis" = Some (VStr "steady")
            /\ d !! "intent" = Some (VStr "market_research")
  | Raise _ => False
  end /\
  get0 (counters (collector w)) "total_requests" = 3 /\
  get0 (counters (collector w)) "failed_requests" = 2 /\
  get0 (counters (collector w)) "successful_requests" = 1 /\
  length (getl (component_metrics (performance w)) "graph_execution") = 3%nat /\
  slept w = [1%Q; 1%Q] /\
  List.filter (fun l => match log_event l with EvUsingFallback _ => true | _ => false end)
              (log w) = [].
Proof.
  intros run w. split_conj; vm_compute; try reflexivity.
  split; reflexivity.
Qed.

(** ** The rate limiter *)

Section RateLimit.
Import RateLimiter.

Variable cfg : Config.
Let m : Z := max_requests_per_minute cfg.

Lemma prune_spec now ts t :
  In t (prune now ts) <-> In t ts /\ (now - t < 60)%Q.
Proof.
  unfold prune. rewrite filter_In.
  destruct (Qlt_le_dec (now - t) 60) as [Hlt|Hge]; split; intros [H1 H2];
    split; try done.
  exfalso. by apply (Qlt_not_le _ _ H2).
Qed.

Lemma prune_length now ts : (length (prune now ts) <= length ts)%nat.
Proof.
  unfold prune. induction ts as [|t ts IH]; simpl; [lia|].
  destruct (Qlt_le_dec (now - t) 60); simpl; lia.
Qed.

Lemma prune_all_recent now ts :
  (forall t, In t ts -> (now - t < 60)%Q) -> prune now ts = ts.
Proof.
  unfold prune. induction ts as [|t ts IH]; intros H; simpl; [done|].
  destruct (Qlt_le_dec (now - t) 60) as [Hlt|Hge].
  - f_equal. apply IH. intros t' Ht'. apply H. by right.
  - exfalso. apply (Qlt_not_le _ _ (H t (or_introl eq_refl))). exact Hge.
Qed.

Lemma prune_drops_expired now ts s :
  In s ts -> (60 <= now - s)%Q ->
  (length (prune now ts) < length ts)%nat.
Proof.
  unfold prune. induction ts as [|t ts IH]; intros Hin Hold; [done|].
  simpl. destruct (Qlt_le_dec (now - t) 60) as [Hlt|Hge]; simpl.
  - destruct Hin as [->|Hin].
    + exfalso. by apply (Qlt_not_le _ _ Hlt).
    + specialize (IH Hin Hold). lia.
  - pose proof (prune_length now ts) as Hle. unfold prune in Hle. lia.
Qed.

Hypothesis enabled : api_key_required cfg = true.

(** The check, once rate limiting is switched on. *)
Lemma rate_limit_check_enabled user_id now rt :
  let uid := identity user_id in
  let kept := prune now (getl rt uid) in
  rate_limit_check cfg user_id now rt
  = if m <=? Z.of_nat (length kept)
    then (TooManyRequests, <[uid := kept]> rt)
    else (Allowed, <[uid := kept ++ [now]]> rt).
Proof.
  intros uid kept. unfold rate_limit_check. rewrite enabled. simpl.
  fold uid. fold m.
  assert (Hk : match rt !! uid with Some ts => prune now ts | None => [] end = kept).
  { unfold kept, getl. by destruct (rt !! uid). }
  rewrite Hk. destruct (m <=? Z.of_nat (length kept)); [done|].
  by rewrite insert_insert_eq.
Qed.

Lemma burst_allowed user_id : forall times ws rt,
  getl rt (identity user_id) = ws ->
  burst ws times ->
  Z.of_nat (length ws + length times) <= m ->
  run_checks cfg user_id times rt
  = (replicate (length times) Allowed, 
     match times with
     | [] => rt
     | _ => <[identity user_id := ws ++ times]> rt
     end).
Proof.
  induction times as [|t times IH]; intros ws rt Hws Hb Hlen; [done|].
  destruct Hb as [Hrecent Hb]. simpl run_checks.
  rewrite rate_limit_check_enabled. rewrite Hws.
  rewrite (prune_all_recent t ws Hrecent).
  destruct (Z.leb_spec m (Z.of_nat (length ws))) as [Hfull|_].
  { simpl in Hlen. lia. }
  rewrite (IH (ws ++ [t])); [| |done|].
  - simpl. f_equal. destruct times; [done|].
    rewrite insert_insert_eq. by rewrite <- app_assoc.
  - unfold getl. by rewrite lookup_insert_eq.
  - rewrite length_app. simpl in *. lia.
Qed.

Lemma rate_limit_check_bounded user_id now rt :
  windows_bounded cfg rt ->
  windows_bounded cfg (snd (rate_limit_check cfg user_id now rt)).
Proof.
  intros Hb uid ws. rewrite rate_limit_check_enabled.
  set (kept := prune now (getl rt (identity user_id))).
  assert (Hkept : kept = [] \/ Z.of_nat (length kept) <= m).
  { unfold kept, getl. destruct (rt !! identity user_id) as [old|] eqn:Hold;
      [|by left].
    destruct (Hb _ _ Hold) as [->|Hle]; [by left|].
    right. pose proof (prune_length now old). simpl. lia. }
  destruct (Z.leb_spec m (Z.of_nat (length kept))) as [Hfull|Hroom]; simpl;
    intros Hlook; apply lookup_insert_Some in Hlook as [[_ <-]|[_ Hlook]];
    try (by eapply Hb).
  - done.
  - right. rewrite length_app. simpl. lia.
Qed.

Lemma run_requests_bounded reqs : forall rt,
  windows_bounded cfg rt -> windows_bounded cfg (run_requests cfg reqs rt).
Proof.
  induction reqs as [|[user_id t] reqs IH]; intros rt Hb; simpl; [done|].
  apply IH. by apply rate_limit_check_bounded.
Qed.

Lemma windows_bounded_empty : windows_bounded cfg ∅.
Proof. intros uid ws H. by rewrite lookup_empty in H. Qed.

(** C4 (amended). With rate limiting on ([api_key_required] true), for every
    identity and limit [m]: the check keeps exactly the identity's
    timestamps younger than 60 seconds, rejects without recording when
    at least [m] are left, and otherwise records [now] and allows.  A
    fresh identity sending [m + 1] requests in a burst has the first [m]
    let through and the last rejected, the window keeping the [m] accepted
    timestamps only.  In every state reached from the empty table, a
    request made at least 60 seconds after a timestamp still recorded
    for its identity is let through. *)
Theorem rate_limit_window :
  (forall user_id now rt,
     let uid := identity user_id in
     let kept := prune now (getl rt uid) in
     (forall t, In t kept <-> In t (getl rt uid) /\ (now - t < 60)%Q) /\
     (m <= Z.of_nat (length kept) ->
      rate_limit_check cfg user_id now rt
      = (TooManyRequests, <[uid := kept]> rt)) /\
     (Z.of_nat (length kept) < m ->
      rate_limit_check cfg user_id now rt
      = (Allowed, <[uid := kept ++ [now]]> rt))) /\
  (forall user_id times t_last rt,
     rt !! identity user_id = None ->
     Z.of_nat (length times) = m ->
     burst [] (times ++ [t_last]) ->
     fst (run_checks cfg user_id (times ++ [t_last]) rt)
     = replicate (length times) Allowed ++ [TooManyRequests] /\
     getl (snd (run_checks cfg user_id (times ++ [t_last]) rt)) (identity user_id)
     = times) /\
  (forall reqs user_id now s,
     let rt := run_requests cfg reqs ∅ in
     In s (getl rt (identity user_id)) ->
     (60 <= now - s)%Q ->
     fst (rate_limit_check cfg user_id now rt) = Allowed).
Proof.
  split; [|split].
  - intros user_id now rt uid kept. split; [|split].
    + intros t. apply prune_spec.
    + intros Hfull. rewrite rate_limit_check_enabled. fold uid kept.
      by destruct (Z.leb_spec m (Z.of_nat (length kept))); [|lia].
    + intros Hroom. rewrite rate_limit_check_enabled. fold uid kept.
      by destruct (Z.leb_spec m (Z.of_nat (length kept))); [lia|].
  - intros user_id times t_last rt Hfresh Hlen Hburst.
    assert (Hsplit : forall ts ws rt0 os rt1,
              run_checks cfg user_id ts rt0 = (os, rt1) ->
              run_checks cfg user_id (ts ++ ws) rt0
              = (os ++ fst (run_checks cfg user_id ws rt1),
                 snd (run_checks cfg user_id ws rt1))).
    { induction ts as [|t ts IH]; intros ws rt0 os rt1 Hrun; simpl in *.
      - injection Hrun as <- <-. by destruct (run_checks cfg user_id ws rt0).
      - destruct (rate_limit_check cfg user_id t rt0) as [o rt0'].
        destruct (run_checks cfg user_id ts rt0') as [os' rt0''] eqn:Hts.
        injection Hrun as <- <-.
        by rewrite (IH ws rt0' os' rt0'' Hts). }
    assert (Hprefix : burst [] times).
    { assert (G : forall ws, burst ws (times ++ [t_last]) -> burst ws times).
      { clear. induction times as [|t times IH]; intros ws H; simpl in *; [done|].
        destruct H as [H1 H2]. split; [exact H1 | apply IH; exact H2]. }
      by apply G. }
    assert (Hlast : forall s, In s times -> (t_last - s < 60)%Q).
    { clear -Hburst. revert Hburst.
      assert (G : forall ws, burst ws (times ++ [t_last]) ->
                  forall s, In s (ws ++ times) -> (t_last - s < 60)%Q).
      { induction times as [|t times IH]; intros ws H s Hs; simpl in *.
        - rewrite app_nil_r in Hs. by apply H.
        - destruct H as [_ H]. apply (IH (ws ++ [t]) H).
          by rewrite <- app_assoc. }
      intros H s Hs. by apply (G [] H). }
    rewrite (Hsplit times [t_last] rt _ _
               (burst_allowed user_id times [] rt
                  ltac:(unfold getl; by rewrite Hfresh) Hprefix
                  ltac:(simpl; lia))).
    simpl. rewrite rate_limit_check_enabled.
    assert (Hwin : getl (match times with
                         | [] => rt
                         | _ :: _ => <[identity user_id := times]> rt
                         end) (identity user_id) = times).
    { unfold getl. destruct times; [by rewrite Hfresh|].
      by rewrite lookup_insert_eq. }
    rewrite Hwin. rewrite (prune_all_recent t_last times Hlast).
    destruct (Z.leb_spec m (Z.of_nat (length times))) as [_|Hroom]; [|lia].
    simpl. split; [done|]. unfold getl. by rewrite lookup_insert_eq.
  - intros reqs user_id now s rt Hin Hold.
    rewrite rate_limit_check_enabled.
    set (ws := getl rt (identity user_id)) in *.
    assert (Hb : ws = [] \/ Z.of_nat (length ws) <= m).
    { unfold ws, getl. destruct (rt !! identity user_id) as [old|] eqn:Hlook;
        [|by left].
      eapply (run_requests_bounded reqs ∅ windows_bounded_empty). exact Hlook. }
    destruct Hb as [Hnil|Hle]; [by rewrite Hnil in Hin|].
    pose proof (prune_drops_expired now ws s Hin Hold) as Hlt.
    by destruct (Z.leb_spec m (Z.of_nat (length (prune now ws)))); [lia|].
Qed.

End RateLimit.

Lemma burst_of_six : burst [] [0; 2; 4; 6; 8; 10]%Q.
Proof.
  simpl. split_conj; try exact I;
    intros s Hs; simpl in Hs;
    repeat (destruct Hs as [<-|Hs]; [reflexivity|]); destruct Hs.
Qed.

Lemma rate_limit_window_witness :
  fst (run_checks five_per_minute (Some "u1") ([0; 2; 4; 6; 8] ++ [10])%Q ∅)
  = replicate 5 RateLimiter.Allowed ++ [RateLimiter.TooManyRequests] /\
  getl (snd (run_checks five_per_minute (Some "u1") ([0; 2; 4; 6; 8] ++ [10])%Q ∅))
       "u1"
  = [0; 2; 4; 6; 8]%Q.
Proof.
  destruct (rate_limit_window five_per_minute eq_refl) as (_ & Hburst & _).
  apply (Hburst (Some "u1") [0; 2; 4; 6; 8]%Q 10%Q ∅).
  - reflexivity.
  - reflexivity.
  - exact burst_of_six.
Defined.

(** Scenario: limit 5, identity "u1" sends six requests within ten
    seconds and a seventh 61 seconds later. *)
Example six_requests_then_a_gap :
  fst (run_checks five_per_minute (Some "u1") [0; 2; 4; 6; 8; 10; 71]%Q ∅)
  = [RateLimiter.Allowed; RateLimiter.Allowed; RateLimiter.Allowed;
     RateLimiter.Allowed; RateLimiter.Allowed; RateLimiter.TooManyRequests;
     RateLimiter.Allowed].
Proof. vm_compute. reflexivity. Qed.

(** C4 as stated fails when [api_key_required] is off, which is the
    default: the second request of an identity within a second is allowed
    although the limit is one, and no timestamp is pruned or recorded. *)
Lemma disabled_limiter_allows_everything :
  RateLimiter.api_key_required RateLimiter.default_config = false /\
  run_checks one_per_minute_switched_off (Some "u1") [0; 1]%Q ∅
  = ([RateLimiter.Allowed; RateLimiter.Allowed], ∅) /\
  fst (RateLimiter.rate_limit_check one_per_minute_switched_off (Some "u1") 1%Q
         (<["u1" := [0%Q]]> ∅))
  <> RateLimiter.TooManyRequests.
Proof. split; [reflexivity|]. split; [reflexivity | discriminate]. Qed.

(** ** The error rate of the metrics summary *)

Lemma record_error_counters error_type severity m :
  counters (record_error_on error_type severity m)
  = bump "total_errors"
      (bump ("severity_" +:+ severity) (bump ("error_" +:+ error_type) (counters m))).
Proof. reflexivity. Qed.

Lemma record_error_total_errors error_type severity m :
  get0 (counters (record_error_on error_type severity m)) "total_errors"
  = get0 (counters m) "total_errors" + 1.
Proof.
  rewrite record_error_counters, get0_bump_eq.
  rewrite !get0_bump_ne; [done | |]; intros H; discriminate H.
Qed.

Lemma record_error_requests error_type severity m k :
  k = "total_requests" \/ k = "failed_requests" ->
  get0 (counters (record_error_on error_type severity m)) k = get0 (counters m) k.
Proof.
  intros Hk. rewrite record_error_counters.
  rewrite !get0_bump_ne; [done | | |];
    destruct Hk as [-> | ->]; intros H; discriminate H.
Qed.

Lemma count_calls_cons p c calls :
  count_calls p (c :: calls) = (if p c then 1 else 0) + count_calls p calls.
Proof. unfold count_calls. simpl. destruct (p c); simpl length; lia. Qed.

Lemma fold_calls_counters calls : forall m,
  let m' := fold_left apply_call calls m in
  get0 (counters m') "total_requests"
  = get0 (counters m) "total_requests" + count_calls is_request calls /\
  get0 (counters m') "failed_requests"
  = get0 (counters m) "failed_requests" + count_calls is_failed_request calls /\
  get0 (counters m') "total_errors"
  = get0 (counters m) "total_errors" + count_calls is_error calls.
Proof.
  induction calls as [|c calls IH]; intros m; cbn [fold_left].
  - unfold count_calls. simpl. lia.
  - destruct (IH (apply_call m c)) as (H1 & H2 & H3).
    rewrite H1, H2, H3, !count_calls_cons. clear.
    destruct c as [ts intent rt success|error_type severity];
      cbn [apply_call is_request is_failed_request is_error].
    + rewrite record_request_total, record_request_failed.
      rewrite record_request_error_counters by (by left).
      destruct success; lia.
    + rewrite record_error_total_errors.
      rewrite !record_error_requests by tauto. lia.
Qed.

(** C5 (amended). After any sequence of [record_request] and
    [record_error] calls on a new collector, the error rate of the summary
    is the number of [record_error] calls divided by
    [max(number of record_request calls, 1)]: the divisor is at least one,
    so the rate is defined with zero requests, but failed requests do not
    enter it; with [record_request] calls only it is [0 / max(total, 1)]
    whatever the number of failures reported alongside. *)
Theorem error_rate_counts_record_error_only (calls : list CollectorCall)
    (start now : Q) :
  let s := summary_at now (fold_left apply_call calls (new_collector start)) in
  errors_rate s
  = (inject_Z (count_calls is_error calls)
     / inject_Z (Z.max (count_calls is_request calls) 1))%Q /\
  1 <= Z.max (count_calls is_request calls) 1 /\
  requests_total s = count_calls is_request calls /\
  requests_failed s = count_calls is_failed_request calls /\
  (forallb is_request calls = true ->
   errors_rate s = (inject_Z 0 / inject_Z (Z.max (requests_total s) 1))%Q).
Proof.
  intros s.
  destruct (fold_calls_counters calls (new_collector start)) as (H1 & H2 & H3).
  assert (E1 : requests_total s = count_calls is_request calls)
    by (unfold s; simpl; rewrite H1; reflexivity).
  assert (E2 : requests_failed s = count_calls is_failed_request calls)
    by (unfold s; simpl; rewrite H2; reflexivity).
  assert (E3 : errors_total s = count_calls is_error calls)
    by (unfold s; simpl; rewrite H3; reflexivity).
  assert (E4 : errors_rate s
               = (inject_Z (errors_total s)
                  / inject_Z (Z.max (requests_total s) 1))%Q) by reflexivity.
  split; [by rewrite E4, E3, E1|]. split; [lia|].
  split; [done|]. split; [done|].
  intros Hall. rewrite E4, E3. do 2 f_equal.
  unfold count_calls. clear -Hall.
  induction calls as [|c calls IH]; [done|].
  simpl in Hall. apply andb_prop in Hall as [Hc Hall].
  simpl. destruct c; [by apply IH | discriminate].
Qed.

(** C5 as stated fails: after one failed request the failed count is 1
    and the total is 1, but the reported error rate is 0, not 1/1. *)
Lemma error_rate_ignores_failed_requests :
  let s := summary_at 10 (record_request_at 1 "error" (1 # 2) false
                            (new_collector 0)) in
  requests_failed s = 1 /\
  requests_total s = 1 /\
  errors_rate s = (0 / 1)%Q /\
  ~ (errors_rate s
     == inject_Z (requests_failed s) / inject_Z (Z.max (requests_total s) 1))%Q.
Proof.
  intros s. split_conj; try (vm_compute; reflexivity).
  vm_compute. discriminate.
Qed.

(** ** Routing *)

(** C8. The routing decision is total and returns one of the four stage
    names, each resolved by the graph to its stage: the three mapped
    intents go to their own stage and every other intent value goes to
    [question_answerer].  A run of the graph that completes has executed
    the router and then exactly one stage, the one chosen by the routing
    decision; and whenever the router and the chosen stage return, the
    run does complete (the stage is given, and the run leaves, the keys
    that [InvestmentState] declares). *)
Theorem exactly_one_stage_per_run :
  (forall state : Dict,
     exists s, route_decision state = stage_name s /\
               next_node NRouter state = Some (NStage s) /\
               s = default question_answerer
                     (mapped_intent (dict_get state "intent"
                                       (VStr "question_answering")))) /\
  (forall env input w final trace w',
     run_graph env recursion_limit NRouter input w = (Ok (final, trace), w') ->
     exists update s,
       fst (router_node env input w) = Ok update /\
       route_decision (update ∪ input) = stage_name s /\
       trace = [NRouter; NStage s] /\
       length (List.filter (fun n => match n with NStage _ => true | _ => false end)
                           trace) = 1%nat) /\
  (forall env input w update w1 s update',
     router_node env input w = (Ok update, w1) ->
     route_decision (update ∪ input) = stage_name s ->
     stage_node env s (ext_calls w1) (update ∪ declared input) = Ok update' ->
     run_graph env recursion_limit NRouter input w
     = (Ok (declared update' ∪ (update ∪ declared input), [NRouter; NStage s]),
        set_ext_calls (S (ext_calls w1)) w1)).
Proof.
  split; [|split].
  - intros state.
    destruct (route_decision_cases state)
      as [[Hi H]|[[Hi H]|[[Hi H]|(N1 & N2 & N3 & H)]]]; simpl; rewrite H.
    + exists profile_analyzer. by rewrite Hi.
    + exists portfolio_builder. by rewrite Hi.
    + exists market_researcher. by rewrite Hi.
    + exists question_answerer. split_conj; try done.
      destruct (dict_get state "intent" (VStr "question_answering")) as [| | | |i| | |];
        try done.
      unfold mapped_intent.
      repeat (match goal with
              | |- context [match ?x with _ => _ end] => destruct x; try done
              end).
  - intros env input w final trace w' Hrun.
    unfold recursion_limit in Hrun. rewrite run_graph_unfold in Hrun.
    destruct (router_node env input w) as [[update|e] w1] eqn:Hr; [|discriminate].
    destruct (router_node_update _ _ _ _ _ Hr) as (i & c & ->).
    destruct (route_decision_stage (router_update i c ∪ declared input))
      as (s & Hname & Hnext).
    cbv zeta in Hrun. rewrite Hnext in Hrun.
    destruct (stage_node env s (ext_calls w1) (router_update i c ∪ declared input));
      [|discriminate].
    injection Hrun as <- <- <-. exists (router_update i c), s.
    split; [done|]. split; [|done].
    by rewrite (route_decision_router_update i c input (declared input)).
  - intros env input w update w1 s update' Hrouter Hname Hstage.
    unfold recursion_limit. rewrite run_graph_unfold, Hrouter. cbv zeta.
    destruct (router_node_update _ _ _ _ _ Hrouter) as (i & c & ->).
    destruct (route_decision_stage (router_update i c ∪ declared input))
      as (s' & Hname' & Hnext).
    rewrite (route_decision_router_update i c input (declared input)) in Hname.
    rewrite Hname in Hname'. apply stage_name_inj in Hname'. subst s'.
    by rewrite Hnext, Hstage.
Qed.

(** Scenario: the classifier answers ["portfolio_creation|0.9"]; the run
    executes the router and the portfolio stage only, and the state holds
    the declared key written by that stage, but not the undeclared one. *)
Example portfolio_request_runs_portfolio_stage :
  let env := scripted_env (fun _ => Ok "portfolio_creation|0.9")
               (fun s _ _ => Ok (<["builder_reasoning" := VStr (stage_name s)]>
                                   (<["produced_by" := VStr (stage_name s)]> ∅))) in
  match fst (run_graph env recursion_limit NRouter ask_tesla (initial_world env)) with
  | Ok (final, trace) =>
      trace = [NRouter; NStage portfolio_builder] /\
      final !! "builder_reasoning" = Some (VStr "portfolio_builder") /\
      final !! "produced_by" = None /\
      final !! "intent" = Some (VStr "portfolio_creation")
  | Raise _ => False
  end.
Proof. vm_compute. split_conj; reflexivity. Qed.

(** ** What the router stores *)


Lemma parse_reply_parsed env content label confidence f :
  split_on "|" (strip content) = [label; confidence] ->
  py_float env confidence = Some f ->
  parse_reply env content = (label, f).
Proof. intros Hs Hf. unfold parse_reply. by rewrite Hs, Hf. Qed.

Lemma parse_reply_cases env content :
  parse_reply env content = (default_intent, default_confidence) \/
  exists label confidence f,
    split_on "|" (strip content) = [label; confidence] /\
    py_float env confidence = Some f /\
    parse_reply env content = (label, f).
Proof.
  unfold parse_reply.
  destruct (split_on "|" (strip content)) as [|a [|b [|c l]]]; try by left.
  destruct (py_float env b) as [f|] eqn:Hf; [|by left].
  right. by exists a, b, f.
Qed.



(** C9 (amended). The confidence stored by the router is either the
    default 0.5 or exactly the float that [float()] returned for the
    second part of the reply; no clamping is applied, so it lies in
    [0, 1] only if the parsed value does. *)
Theorem confidence_is_stored_unclamped (env : Env) (state : Dict) (um : Value)
    (content : string) (w : World) :
  let confidence := snd (parse_reply env content) in
  (state !! "user_message" = Some um ->
   llm env (ext_calls w) um = Ok content ->
   exists update,
     fst (router_node env state w) = Ok update /\
     update !! "confidence" = Some (VFloat confidence)) /\
  (confidence = Fin (1 # 2) \/
   exists label text,
     split_on "|" (strip content) = [label; text] /\
     py_float env text = Some confidence) /\
  (forall label text f,
     split_on "|" (strip content) = [label; text] ->
     py_float env text = Some f ->
     confidence = f /\ (in_unit_interval confidence <-> in_unit_interval f)).
Proof.
  intros confidence. split; [|split].
  - intros Hum Hllm. rewrite (router_node_run env state um content w Hum Hllm).
    eexists. split; [reflexivity|]. unfold router_update.
    by rewrite lookup_insert_eq.
  - unfold confidence.
    destruct (parse_reply_cases env content) as [->|(label & text & f & Hs & Hf & ->)];
      [by left | right; by exists label, text].
  - intros label text f Hs Hf. unfold confidence.
    by rewrite (parse_reply_parsed env content label text f Hs Hf).
Qed.

(** C9 as stated fails: the reply ["market_research|5"] is stored with
    confidence 5.0, outside [0, 1]. *)
Lemma confidence_above_one_is_stored :
  fst (router_node (replying "market_research|5") ask_tesla
         (initial_world (replying "market_research|5")))
  = Ok (router_update "market_research" (Fin 5)) /\
  ~ in_unit_interval (Fin 5).
Proof.
  split; [vm_compute; reflexivity|].
  intros [_ H]. revert H. vm_compute. intros H. by apply H.
Qed.

(** * Further properties of the resilience layer *)

(** ** The decorator: termination of the loop, attempts and backoff *)

Lemma retry_loop_returns env retries delay fname func todo :
  backoffs_sleepable retries delay ->
  forall attempt last w,
    0 <= attempt ->
    exists out w',
      retry_loop env retries delay fname func todo attempt last w = (Ok out, w').
Proof.
  intros Hsl. induction todo as [|todo IH]; intros attempt last w Ha;
    [by do 2 eexists|].
  destruct (func w) as [[v|e] w1] eqn:Hf.
  - rewrite (retry_loop_ok _ _ _ _ _ _ _ _ _ _ _ Hf). by do 2 eexists.
  - destruct (is_validation_error e) eqn:Hval.
    + rewrite (retry_loop_validation _ _ _ _ _ _ _ _ _ _ _ Hf Hval).
      by do 2 eexists.
    + destruct (Z.lt_ge_cases attempt retries) as [Hlt|Hge].
      * rewrite (retry_loop_retry _ _ _ _ _ _ _ _ _ _ _ Hf Hval Hlt)
          by (apply Hsl; lia).
        apply IH. lia.
      * rewrite (retry_loop_last _ _ _ _ _ _ _ _ _ _ _ Hf Hval) by lia.
        by do 2 eexists.
Qed.

(** After the loop the decorator writes at most the log line of the
    fallback. *)
Lemma with_error_handling_world env retries delay fallback_response fname func w :
  let wl := snd (retry_loop env retries delay fname func
                   (Z.to_nat (retries + 1)) 0 None w) in
  let w' := snd (with_error_handling env retries delay fallback_response
                   fname func w) in
  w' = wl \/
  w' = set_log (log wl ++ [{| log_level := LvlWarning;
                              log_event := EvUsingFallback fname |}]) wl.
Proof.
  intros wl w'. unfold w', wl, with_error_handling, bind.
  destruct (retry_loop env retries delay fname func (Z.to_nat (retries + 1))
              0 None w) as [[[v|last]|e] w1]; simpl; [by left | | by left].
  destruct fallback_response as [d|]; [destruct (dict_truthy d)|];
    try (left; by destruct last).
  by right.
Qed.

(** X1. A decorator configured with a non-empty fallback, and with a
    delay that [time.sleep] accepts after each attempt, never lets an
    exception of the wrapped function escape: whatever the function, the
    retry budget and the state, the call returns a dictionary. *)
Theorem fallback_makes_wrapper_total (env : Env) (retries : Z) (delay : Q)
    (d : Dict) (fname : string) (func : M Dict) (w : World) :
  backoffs_sleepable retries delay ->
  dict_truthy d = true ->
  exists v w',
    with_error_handling env retries delay (Some d) fname func w = (Ok v, w').
Proof.
  intros Hsl Hd. unfold with_error_handling, bind.
  destruct (retry_loop_returns env retries delay fname func
              (Z.to_nat (retries + 1)) Hsl 0 None w) as (out & w1 & ->); [lia|].
  destruct out as [v|last]; [by do 2 eexists|].
  rewrite Hd. by do 2 eexists.
Qed.

Lemma fallback_makes_wrapper_total_witness :
  exists v w',
    with_error_handling quiet_env 2 1 (Some invoke_fallback) "always_down"
      always_down (initial_world quiet_env)
    = (Ok v, w').
Proof.
  apply (fallback_makes_wrapper_total quiet_env 2 1 invoke_fallback
           "always_down" always_down (initial_world quiet_env)).
  - apply backoffs_sleepable_intro; vm_compute; discriminate.
  - reflexivity.
Defined.

(** With a negative delay the fallback is not reached: the [ValueError]
    of [time.sleep] is raised inside the [except] clause of the first
    failure and leaves the decorator after one call of the function. *)
Example negative_delay_escapes_the_fallback :
  let r := with_error_handling quiet_env 2 (-1) (Some invoke_fallback)
             "always_down" always_down (initial_world quiet_env) in
  fst r = Raise (PyError "ValueError" "sleep length must be non-negative") /\
  request_count (snd r) = 1.
Proof. vm_compute. split; reflexivity. Qed.

Section Attempts.
Variable env : Env.
Variables (retries : Z) (delay : Q) (fname : string) (func : M Dict).
Variable count : World -> Z.
Hypothesis count_frame : forall w w', handler_frame w w' -> count w' = count w.
Hypothesis count_call : forall w, count (snd (func w)) = count w + 1.

Lemma retry_loop_calls todo :
  forall attempt last w,
    Z.of_nat todo = Z.max 0 (retries + 1 - attempt) ->
    let w' := snd (retry_loop env retries delay fname func todo attempt last w) in
    count w <= count w' <= count w + Z.of_nat todo /\
    (todo <> 0%nat -> count w + 1 <= count w').
Proof.
  induction todo as [|todo IH]; intros attempt last w Htodo; [simpl; lia|].
  pose proof (count_call w) as Hcall.
  destruct (func w) as [[v|e] w1] eqn:Hf; simpl in Hcall.
  - rewrite (retry_loop_ok _ _ _ _ _ _ _ _ _ _ _ Hf). simpl. lia.
  - destruct (is_validation_error e) eqn:Hval.
    + rewrite (retry_loop_validation _ _ _ _ _ _ _ _ _ _ _ Hf Hval). simpl.
      rewrite (count_frame w1 _ (log_error_frame env e None fname w1)). lia.
    + destruct (Z.lt_ge_cases attempt retries) as [Hlt|Hge].
      * destruct (sleepable_dec (backoff delay e attempt)) as [Hs|Hs].
        -- rewrite (retry_loop_retry _ _ _ _ _ _ _ _ _ _ _ Hf Hval Hlt Hs).
           pose proof (count_frame w1 _
                         (retried_frame env delay fname attempt e w1)) as Hfr.
           destruct (IH (attempt + 1) (Some e)
                        (retried_effect env delay fname attempt e w1)) as [Hb _];
             [lia|].
           cbv zeta in Hb |- *. split; [lia | intros _; lia].
        -- destruct (retry_loop_sleep_raises env retries delay fname func todo
                       attempt last w e w1 Hf Hval Hlt Hs) as [e' ->].
           simpl.
           rewrite (count_frame w1 _
                      (log_error_frame env e (Some attempt) fname w1)).
           lia.
      * rewrite (retry_loop_last _ _ _ _ _ _ _ _ _ _ _ Hf Hval) by lia. simpl.
        rewrite (count_frame w1 _ (log_error_frame env e (Some attempt) fname w1)).
        lia.
Qed.


End Attempts.

(** X2. The decorator calls the wrapped function at least once and at
    most [retries + 1] times when the budget is not negative, and not at
    all when it is negative; any counter that the function advances on
    each call shows it. *)
Theorem wrapper_attempts_bounded (env : Env) (retries : Z) (delay : Q)
    (fallback_response : option Dict) (fname : string) (func : M Dict)
    (count : World -> Z) (w : World) :
  (forall w1 w2, handler_frame w1 w2 -> count w2 = count w1) ->
  (forall w1, count (snd (func w1)) = count w1 + 1) ->
  let w' := snd (with_error_handling env retries delay fallback_response
                   fname func w) in
  (0 <= retries -> count w + 1 <= count w' <= count w + retries + 1) /\
  (retries < 0 -> count w' = count w).
Proof.
  intros Hframe Hcall w'.
  destruct (retry_loop_calls env retries delay fname func count Hframe Hcall
              (Z.to_nat (retries + 1)) 0 None w) as [Hb Hpos]; [lia|].
  cbv zeta in Hb, Hpos.
  assert (Hw' : count w'
                = count (snd (retry_loop env retries delay fname func
                                (Z.to_nat (retries + 1)) 0 None w))).
  { destruct (with_error_handling_world env retries delay fallback_response
                fname func w) as [H|H]; fold w' in H; rewrite H; [done|].
    apply Hframe. by repeat split. }
  rewrite Hw'. split; intros Hr.
  - split; [apply Hpos; lia | lia].
  - lia.
Qed.

Lemma wrapper_attempts_bounded_witness :
  let w' := snd (with_error_handling quiet_env 2 1 None "always_down"
                   always_down (initial_world quiet_env)) in
  (0 <= 2 -> 0 + 1 <= request_count w' <= 0 + 2 + 1) /\
  (2 < 0 -> request_count w' = 0).
Proof.
  apply (wrapper_attempts_bounded quiet_env 2 1 None "always_down" always_down
           request_count (initial_world quiet_env)).
  - intros w1 w2 (_ & _ & _ & H). exact H.
  - intros w1. reflexivity.
Defined.

(** The decorated [invoke] never raises. *)
Lemma invoke_returns env input w :
  exists d w', invoke env input w = (Ok d, w').
Proof.
  unfold invoke, with_error_handling, bind.
  destruct (retry_loop_returns env 2 1 "invoke" (invoke_body env input)
              (Z.to_nat (2 + 1)) invoke_backoffs_sleepable 0 None w)
    as (out & w1 & ->); [lia|].
  destruct out as [v|last]; [by do 2 eexists|].
  change (dict_truthy invoke_fallback) with true. by do 2 eexists.
Qed.

(** X3. [get_health_status] never raises and never takes its [except]
    branch: the decorated [invoke] always returns a dictionary, and the
    status is ["unhealthy"] exactly when that dictionary carries the
    intent ["error"] (as the fallback response does). *)
Theorem health_status_follows_probe_intent (env : Env) (w : World) :
  exists d w1 h w',
    invoke env health_probe w = (Ok d, w1) /\
    get_health_status env w = (Ok h, w') /\
    status h = (if value_is_str (dict_get d "intent" VNone) "error"
                then "unhealthy" else "healthy").
Proof.
  destruct (invoke_returns env health_probe w) as (d & w1 & Hrun).
  exists d, w1. unfold get_health_status, bind, try_except. rewrite Hrun.
  do 2 eexists. split; [done|]. split; [reflexivity|]. simpl.
  by destruct (value_is_str (dict_get d "intent" VNone) "error").
Qed.

(** ** The delays between attempts *)



(** ** [safe_graph_invoke] *)

Lemma input_context_serializable (input_data : Dict) :
  dict_json_serializable (<["input" := VDict (map_to_list input_data)]> ∅)
  = dict_json_serializable input_data.
Proof.
  unfold dict_json_serializable. rewrite insert_empty, map_to_list_singleton.
  simpl. by rewrite andb_true_r.
Qed.

(** X5. When the graph returns, [safe_graph_invoke] hands its result
    back and nothing else changes.  When the graph raises [e], the error
    is counted once in the error handler; then, if every value of the
    input can be serialised by [json.dumps], the error is logged and the
    caller gets the error response: the fallback message, intent
    ["error"], [error_occurred] and the class name of [e]; if not, the
    [TypeError] of [json.dumps] leaves [safe_graph_invoke] and nothing is
    logged. *)
Theorem safe_graph_invoke_outcome (env : Env) (graph : Dict -> M Dict)
    (input_data : Dict) (fallback_message : string) (w : World) :
  match graph input_data w with
  | (Ok result, w1) =>
      safe_graph_invoke env graph input_data fallback_message w = (Ok result, w1)
  | (Raise e, w1) =>
      exists r w',
        safe_graph_invoke env graph input_data fallback_message w = (r, w') /\
        error_counts (error_handler w')
        = bump (error_key e) (error_counts (error_handler w1)) /\
        handler_frame w1 w' /\
        if dict_json_serializable input_data then
          (exists d,
             r = Ok d /\
             d !! "response" = Some (VStr fallback_message) /\
             d !! "intent" = Some (VStr "error") /\
             d !! "error_occurred" = Some (VBool true) /\
             d !! "error_type" = Some (VStr (exc_type_name e))) /\
          log w' = log w1 ++ [{| log_level := log_level_of e;
                                 log_event :=
                                   EvErrorInfo (exc_type_name e) (exc_str e)
                                     (clock env (clock_reads w1))
                                     (<["input" := VDict (map_to_list input_data)]> ∅) |}]
        else
          r = Raise (PyError "TypeError"
                       "Object of type object is not JSON serializable") /\
          log w' = log w1
  end.
Proof.
  unfold safe_graph_invoke, try_except.
  destruct (graph input_data w) as [[result|e] w1]; [done|].
  unfold bind. rewrite log_error_any, input_context_serializable.
  destruct (dict_json_serializable input_data).
  - do 2 eexists. split; [reflexivity|]. split; [reflexivity|].
    split; [by repeat split|]. split; [|reflexivity].
    eexists. split; [reflexivity|]. split_conj; reflexivity.
  - do 2 eexists. split; [reflexivity|]. split; [reflexivity|].
    split; [by repeat split|]. by split.
Qed.

(** Scenario: the request carries an object that [json.dumps] rejects
    and the graph raises; the [TypeError] of the handler reaches the
    caller, the error of the graph having been counted. *)
Example safe_graph_invoke_unserialisable_input :
  let input := <["user_message" := VObject]> ∅ in
  let r := safe_graph_invoke quiet_env (fun _ => always_down) input "sorry"
             (initial_world quiet_env) in
  fst r = Raise (PyError "TypeError"
                   "Object of type object is not JSON serializable") /\
  error_counts (error_handler (snd r))
  = bump (error_key (PyError "ConnectionError" "service unavailable")) ∅.
Proof. vm_compute. split; reflexivity. Qed.

(** * Further properties: monitoring, rate limiting, routing, portfolio,
      analytics *)

(** ** The sliding windows of the collectors *)

Lemma deque_append_most_recent {A} (n : nat) (x : A) (h : list A) :
  deque_append n x (most_recent n h) = most_recent n (h ++ [x]).
Proof.
  unfold deque_append, most_recent.
  rewrite !length_app, length_drop. simpl.
  destruct (Nat.le_gt_cases (length h) n) as [Hle|Hgt].
  - replace (length h - n)%nat with 0%nat by lia.
    rewrite drop_0. f_equal. lia.
  - replace (length h + 1 - n)%nat
      with ((length h - n) + (length h - (length h - n) + 1 - n))%nat by lia.
    rewrite <- drop_drop. by rewrite (drop_app_le h [x]) by lia.
Qed.

Lemma most_recent_length {A} (n : nat) (h : list A) :
  length (most_recent n h) = Nat.min (length h) n.
Proof. unfold most_recent. rewrite length_drop. lia. Qed.

Lemma record_error_metrics error_type severity m :
  metrics (record_error_on error_type severity m) = metrics m /\
  window_size (record_error_on error_type severity m) = window_size m.
Proof. done. Qed.

Lemma fold_left_snoc {A B} (f : A -> B -> A) l x a :
  fold_left f (l ++ [x]) a = f (fold_left f l a) x.
Proof. by rewrite fold_left_app. Qed.

Lemma omap_snoc {A B} (f : A -> option B) l x :
  omap f (l ++ [x]) = omap f l ++ match f x with Some y => [y] | None => [] end.
Proof. rewrite omap_app. simpl. by destruct (f x). Qed.

(** X6. After any sequence of [record_request] and [record_error] calls
    on a new collector, the response-time window and the timestamp window
    hold exactly the 100 most recent values passed to [record_request],
    oldest first; so neither is ever longer than 100 and the summary never
    reports more than 100 requests per minute. *)
Theorem windows_hold_most_recent (calls : list CollectorCall) (start : Q) :
  let m := fold_left apply_call calls (new_collector start) in
  getl (metrics m) "response_times" = most_recent 100 (response_times_of calls) /\
  getl (metrics m) "requests_per_minute" = most_recent 100 (timestamps_of calls) /\
  (length (getl (metrics m) "response_times") <= 100)%nat /\
  (length (getl (metrics m) "requests_per_minute") <= 100)%nat /\
  (forall now, (requests_per_minute (summary_at now m) <= 100)%nat).
Proof.
  intros m.
  assert (H : window_size m = 100%nat /\
              getl (metrics m) "response_times"
              = most_recent 100 (response_times_of calls) /\
              getl (metrics m) "requests_per_minute"
              = most_recent 100 (timestamps_of calls)).
  { unfold m. clear m. induction calls as [|c calls IH] using rev_ind; [done|].
    rewrite fold_left_snoc. unfold response_times_of, timestamps_of.
    rewrite !omap_snoc.
    destruct IH as (Hw & Hr & Ht).
    destruct c as [ts intent rt success|error_type severity]; cbn [apply_call].
    - rewrite record_request_window_size, record_request_response_times,
        record_request_timestamps, Hw, Hr, Ht.
      by rewrite !deque_append_most_recent.
    - destruct (record_error_metrics error_type severity
                  (fold_left apply_call calls (new_collector start))) as [-> ->].
      by rewrite !app_nil_r. }
  destruct H as (Hw & Hr & Ht).
  split; [done|]. split; [done|].
  assert (L1 : (length (getl (metrics m) "response_times") <= 100)%nat)
    by (rewrite Hr, most_recent_length; lia).
  assert (L2 : (length (getl (metrics m) "requests_per_minute") <= 100)%nat)
    by (rewrite Ht, most_recent_length; lia).
  split; [done|]. split; [done|].
  intros now. cbn [requests_per_minute summary_at].
  etrans; [|exact L2]. clear.
  induction (getl (metrics m) "requests_per_minute") as [|t l IH]; simpl; [lia|].
  destruct (Qlt_le_dec (now - t) 60); simpl; lia.
Qed.

Lemma keep_recent_most_recent {A} (l : list A) : keep_recent l = most_recent 100 l.
Proof.
  unfold keep_recent, most_recent.
  destruct (Nat.ltb_spec 100 (length l)); [done|].
  replace (length l - 100)%nat with 0%nat by lia. by rewrite drop_0.
Qed.

Lemma keep_recent_snoc {A} (h : list A) (x : A) :
  keep_recent (most_recent 100 h ++ [x]) = most_recent 100 (h ++ [x]).
Proof.
  rewrite keep_recent_most_recent, <- (deque_append_most_recent 100 x h).
  reflexivity.
Qed.

Lemma record_component_time_history ts n d p name :
  getl (component_metrics (record_component_time_at ts n d p)) name
  = if bool_decide (n = name)
    then keep_recent (getl (component_metrics p) name
                      ++ [{| duration := d; timestamp := ts |}])
    else getl (component_metrics p) name.
Proof.
  unfold record_component_time_at, getl. simpl. case_bool_decide as Hn.
  - subst n. by rewrite lookup_insert_eq.
  - by rewrite lookup_insert_ne.
Qed.

(** X7. After any sequence of [record_component_time] calls on a new
    monitor, the history of a component holds exactly the 100 most recent
    samples recorded under its name, oldest first; samples of other
    components never displace them. *)
Theorem component_history_most_recent (calls : list (string * Measurement))
    (name : string) :
  let p := fold_left apply_timing calls {| component_metrics := ∅ |} in
  getl (component_metrics p) name = most_recent 100 (samples_of name calls) /\
  (length (getl (component_metrics p) name) <= 100)%nat.
Proof.
  intros p.
  assert (H : getl (component_metrics p) name
              = most_recent 100 (samples_of name calls)).
  { unfold p. clear p. induction calls as [|[n s] calls IH] using rev_ind; [done|].
    rewrite fold_left_snoc. unfold samples_of. rewrite omap_snoc.
    fold (samples_of name calls).
    change (apply_timing ?p (n, s))
      with (record_component_time_at (timestamp s) n (duration s) p).
    rewrite record_component_time_history, IH. cbn [fst snd].
    case_bool_decide.
    - destruct s. apply keep_recent_snoc.
    - by rewrite app_nil_r. }
  split; [done|]. rewrite H, most_recent_length. lia.
Qed.

(** ** Component statistics *)

Lemma fold_Qmin_le ds : forall d,
  (fold_left Qmin ds d <= d)%Q /\
  (forall x, In x ds -> fold_left Qmin ds d <= x)%Q.
Proof.
  induction ds as [|y ds IH]; intros d; simpl.
  - split; [apply Qle_refl | tauto].
  - destruct (IH (Qmin d y)) as [H1 H2]. split.
    + eapply Qle_trans; [exact H1 | apply Q.le_min_l].
    + intros x [<-|Hx]; [|by apply H2].
      eapply Qle_trans; [exact H1 | apply Q.le_min_r].
Qed.

Lemma fold_Qmax_ge ds : forall d,
  (d <= fold_left Qmax ds d)%Q /\
  (forall x, In x ds -> x <= fold_left Qmax ds d)%Q.
Proof.
  induction ds as [|y ds IH]; intros d; simpl.
  - split; [apply Qle_refl | tauto].
  - destruct (IH (Qmax d y)) as [H1 H2]. split.
    + eapply Qle_trans; [apply Q.le_max_l | exact H1].
    + intros x [<-|Hx]; [|by apply H2].
      eapply Qle_trans; [apply Q.le_max_r | exact H1].
Qed.

Lemma last_cons_default {A} (l : list A) : forall a d d',
  List.last (a :: l) d = List.last (a :: l) d'.
Proof.
  induction l as [|b l IH]; intros a d d'; [done|].
  change (List.last (a :: b :: l) d) with (List.last (b :: l) d).
  change (List.last (a :: b :: l) d') with (List.last (b :: l) d').
  apply IH.
Qed.

Lemma last_map_default {A B} (f : A -> B) ms : forall m,
  Some (List.last (List.map f ms) (f m)) = f <$> last (m :: ms).
Proof.
  induction ms as [|m' ms IH]; intros m; [done|].
  change (last (m :: m' :: ms)) with (last (m' :: ms)).
  rewrite <- IH. f_equal. simpl List.map.
  destruct (List.map f ms) as [|b l] eqn:E; [done|].
  apply (last_cons_default (b :: l)).
Qed.

(** X8. [get_component_stats] has no entry for a component without
    samples (so it never divides by zero); for any other component the
    entry counts the samples, its minimum and maximum bound every sample,
    [last_duration] is the newest sample, and the average is the float
    mean [sum / len] of the samples in the order they were taken (whose
    rounded value need not lie between the minimum and the maximum). *)
Theorem component_stats_sound (p : PerformanceMonitor) (name : string) :
  match getl (component_metrics p) name with
  | [] => get_component_stats p !! name = None
  | m :: ms =>
      exists st,
        get_component_stats p !! name = Some st /\
        stat_count st = length (m :: ms) /\
        (forall x, In x (m :: ms) ->
                   (min_duration st <= duration x /\ duration x <= max_duration st)%Q) /\
        avg_duration st = MeanOf (List.map duration (m :: ms)) /\
        Some (last_duration st) = duration <$> last (m :: ms)
  end.
Proof.
  unfold get_component_stats, getl. rewrite lookup_omap.
  destruct (component_metrics p !! name) as [[|m ms]|]; simpl; [done| |done].
  eexists. split; [reflexivity|]. cbn [stat_count min_duration max_duration
                                       avg_duration last_duration].
  set (d := duration m). set (ds := List.map duration ms).
  destruct (fold_Qmin_le ds d) as [Hmin1 Hmin2].
  destruct (fold_Qmax_ge ds d) as [Hmax1 Hmax2].
  assert (Hall : forall x, In x (d :: ds) ->
                   (fold_left Qmin ds d <= x /\ x <= fold_left Qmax ds d)%Q).
  { intros x [<-|Hx]; [done|]. split; [by apply Hmin2 | by apply Hmax2]. }
  split; [simpl; f_equal; unfold ds; apply List.length_map|].
  split.
  { intros x Hx. apply Hall.
    destruct Hx as [<-|Hx]; [by left|]. right. unfold ds. by apply in_map. }
  split; [reflexivity|].
  apply (last_map_default duration ms m).
Qed.

(** ** The total of the error statistics *)

Lemma sum_counts_bump k (c : gmap string Z) :
  map_fold (fun _ n acc => n + acc) 0 (bump k c)
  = map_fold (fun _ n acc => n + acc) 0 c + 1.
Proof.
  unfold bump, get0.
  assert (Hcomm : forall (m : gmap string Z) (j1 j2 : string) (z1 z2 y : Z),
            j1 <> j2 -> m !! j1 = Some z1 -> m !! j2 = Some z2 ->
            z1 + (z2 + y) = z2 + (z1 + y)) by (intros; lia).
  destruct (c !! k) as [v|] eqn:Hk; simpl.
  - rewrite <- (insert_delete_id c k v Hk) at 2.
    rewrite <- insert_delete_eq.
    rewrite !map_fold_insert_L; [lia | | | |];
      try apply lookup_delete_eq; intros; lia.
  - rewrite map_fold_insert_L; [lia | intros; lia | done].
Qed.

(** X9. The [total_errors] figure of [get_error_stats] grows by exactly
    one with every [log_error] call, whatever the error and its context
    (also one that [json.dumps] then rejects) and whether or not its key
    was seen before; it is 0 for a new handler. *)
Theorem error_total_counts_log_calls (env : Env)
    (calls : list (Exc * Dict)) (w : World) :
  get_error_stats_total (error_handler (fold_left (apply_log_error env) calls w))
  = get_error_stats_total (error_handler w) + Z.of_nat (length calls) /\
  get_error_stats_total {| error_counts := ∅ |} = 0.
Proof.
  split; [|done].
  induction calls as [|[e c] calls IH] using rev_ind; [simpl; lia|].
  rewrite fold_left_snoc, length_app, Nat2Z.inj_add. simpl length.
  unfold apply_log_error at 1. cbn [fst snd]. rewrite log_error_any.
  unfold get_error_stats_total in *.
  destruct (dict_json_serializable c);
    cbn [snd error_counted error_handler set_log set_error_handler
         set_clock_reads error_counts];
    rewrite sum_counts_bump, IH; lia.
Qed.

(** ** The rate limiter: windows *)

Section RateLimitWindows.
Import RateLimiter.

Lemma rate_limit_check_disabled cfg user_id now rt :
  api_key_required cfg = false ->
  rate_limit_check cfg user_id now rt = (Allowed, rt).
Proof. intros H. unfold rate_limit_check. by rewrite H. Qed.

Lemma run_requests_disabled cfg reqs : forall rt,
  api_key_required cfg = false -> run_requests cfg reqs rt = rt.
Proof.
  induction reqs as [|[u t] reqs IH]; intros rt H; simpl; [done|].
  rewrite rate_limit_check_disabled by done. by apply IH.
Qed.

(** X10. Starting from no recorded request, after any sequence of
    requests of any identities at any times, no identity has more
    timestamps recorded than [max(max_requests_per_minute, 0)]: rejected
    requests are not recorded, and with rate limiting off nothing is. *)
Theorem windows_never_exceed_limit (cfg : Config)
    (reqs : list (option string * Q)) :
  windows_bounded cfg (run_requests cfg reqs ∅).
Proof.
  destruct (api_key_required cfg) eqn:Hen.
  - apply run_requests_bounded; [done|]. by apply windows_bounded_empty.
  - rewrite run_requests_disabled by done. by apply windows_bounded_empty.
Qed.

(** X11. With rate limiting on, a check leaves in the window of the
    checked identity only timestamps less than 60 seconds old, each of
    them the current time or one already recorded for that identity, and
    it leaves the window of every other identity as it was. *)
Theorem check_prunes_own_window_only (cfg : Config) (user_id : option string)
    (now : Q) (rt : gmap string (list Q)) :
  api_key_required cfg = true ->
  let rt' := snd (rate_limit_check cfg user_id now rt) in
  (forall t, In t (getl rt' (identity user_id)) -> (now - t < 60)%Q) /\
  (forall t, In t (getl rt' (identity user_id)) ->
             t = now \/ In t (getl rt (identity user_id))) /\
  (forall other, other <> identity user_id -> rt' !! other = rt !! other).
Proof.
  intros Hen rt'. unfold rt'. rewrite (rate_limit_check_enabled cfg Hen).
  set (uid := identity user_id). set (kept := prune now (getl rt uid)).
  assert (Hkept : forall t, In t kept -> (now - t < 60)%Q /\ In t (getl rt uid)).
  { intros t Ht. apply (prune_spec now (getl rt uid) t) in Ht. tauto. }
  destruct (max_requests_per_minute cfg <=? Z.of_nat (length kept)); simpl.
  - split_conj.
    + intros t. unfold getl. rewrite lookup_insert_eq. simpl. intros Ht.
      by apply Hkept.
    + intros t. unfold getl at 1. rewrite lookup_insert_eq. simpl. intros Ht.
      right. by apply Hkept.
    + intros other Hne. by rewrite lookup_insert_ne.
  - split_conj.
    + intros t. unfold getl. rewrite lookup_insert_eq. simpl. intros Ht.
      apply in_app_or in Ht as [Ht|[<-|[]]]; [by apply Hkept|]. lra.
    + intros t. unfold getl at 1. rewrite lookup_insert_eq. simpl. intros Ht.
      apply in_app_or in Ht as [Ht|[<-|[]]]; [right; by apply Hkept | by left].
    + intros other Hne. by rewrite lookup_insert_ne.
Qed.

Lemma check_prunes_own_window_only_witness :
  snd (rate_limit_check five_per_minute (Some "u2") 100
         (<["u1" := [0; 50]%Q]> ∅)) !! "u1"
  = (<["u1" := [0; 50]%Q]> (∅ : gmap string (list Q))) !! "u1".
Proof.
  destruct (check_prunes_own_window_only five_per_minute (Some "u2") 100
              (<["u1" := [0; 50]%Q]> ∅) eq_refl) as (_ & _ & Hother).
  apply Hother. discriminate.
Defined.

Lemma identity_idempotent user_id :
  identity (Some (identity user_id)) = identity user_id.
Proof. by destruct user_id as [[|a s]|]. Qed.

Lemma rate_limit_check_identity cfg user_id now rt :
  rate_limit_check cfg (Some (identity user_id)) now rt
  = rate_limit_check cfg user_id now rt.
Proof. unfold rate_limit_check. by rewrite identity_idempotent. Qed.

(** X12. Requests without a user id and requests with the empty user
    id are both counted under ["anonymous"], and a client that sends the
    identity it is counted under as its user id is treated exactly like
    one that sends the original id: any sequence of requests leaves the
    same windows either way. *)
Theorem anonymous_requests_share_one_window (cfg : Config)
    (reqs : list (option string * Q)) (rt : gmap string (list Q)) :
  identity None = "anonymous" /\
  identity (Some "") = "anonymous" /\
  run_requests cfg (List.map normalise reqs) rt = run_requests cfg reqs rt.
Proof.
  split; [done|]. split; [done|].
  revert rt. induction reqs as [|[u t] reqs IH]; intros rt; simpl; [done|].
  by rewrite rate_limit_check_identity, IH.
Qed.

End RateLimitWindows.

(** ** The router's reply format *)




(** ** Runs of the graph *)

(** X14. The router has no handler around its reads: a state without
    [user_message] makes the run raise [KeyError] before the classifier
    chain is invoked, and an exception of the classifier call leaves the
    run as it is, after that one call; no stage is entered in either
    case. *)
Theorem classifier_failure_fails_the_run (env : Env) (state : Dict) (w : World) :
  (state !! "user_message" = None ->
   graph_invoke env state w = (Raise (PyError "KeyError" "'user_message'"), w)) /\
  (forall um e,
     state !! "user_message" = Some um ->
     llm env (ext_calls w) um = Raise e ->
     graph_invoke env state w = (Raise e, set_ext_calls (S (ext_calls w)) w)).
Proof.
  split.
  - intros Hum. unfold graph_invoke, bind, recursion_limit.
    rewrite run_graph_unfold. unfold router_node. by rewrite Hum.
  - intros um e Hum Hllm. unfold graph_invoke, bind, recursion_limit.
    rewrite run_graph_unfold. unfold router_node, bind, external.
    rewrite Hum. simpl. by rewrite Hllm.
Qed.

(** X15. A run that completes went through the router and exactly one
    stage.  Its final state has no key that [InvestmentState] does not
    declare (a [request_id] or a [timestamp] of the input is dropped, and
    so is an undeclared key written by the stage); it still has every
    declared key of the input, has [intent] and [confidence], and on the
    declared keys other than these two it is the update returned by the
    stage laid over the input.  The stage ran as the second collaborator
    call, on the router's update laid over the declared part of the
    input. *)
Theorem completed_run_keeps_declared_keys (env : Env) (input final : Dict)
    (trace : list Node) (w w' : World) :
  run_graph env recursion_limit NRouter input w = (Ok (final, trace), w') ->
  (forall k, is_Some (final !! k) -> k ∈ state_keys) /\
  (forall k, k ∈ state_keys -> is_Some (input !! k) -> is_Some (final !! k)) /\
  (exists intent, final !! "intent" = Some intent) /\
  (exists confidence, final !! "confidence" = Some confidence) /\
  exists s intent confidence update',
    trace = [NRouter; NStage s] /\
    stage_node env s (S (ext_calls w))
      (router_update intent confidence ∪ declared input) = Ok update' /\
    forall k, k ∈ state_keys -> k <> "intent" -> k <> "confidence" ->
              final !! k = (update' ∪ input) !! k.
Proof.
  intros Hrun. unfold recursion_limit in Hrun. rewrite run_graph_unfold in Hrun.
  destruct (router_node env input w) as [[update|e] w1] eqn:Hr; [|done].
  destruct (router_node_update _ _ _ _ _ Hr) as (i & c & ->).
  pose proof (router_node_world _ _ _ _ _ Hr) as Hw1.
  cbv zeta in Hrun.
  destruct (next_node NRouter (router_update i c ∪ declared input))
    as [[|s|]|]; try done.
  destruct (stage_node env s (ext_calls w1) (router_update i c ∪ declared input))
    as [update'|e] eqn:Hstage; [|done].
  injection Hrun as <- <- <-.
  assert (Hi : router_update i c !! "intent" = Some (VStr i)).
  { unfold router_update. rewrite lookup_insert_ne by done.
    by rewrite lookup_insert_eq. }
  assert (Hc : router_update i c !! "confidence" = Some (VFloat c)).
  { unfold router_update. by rewrite lookup_insert_eq. }
  split_conj.
  - intros k [v Hk]. destruct (decide (k ∈ state_keys)) as [Hin|Hout]; [done|].
    exfalso. rewrite !lookup_union in Hk.
    rewrite !declared_lookup_out in Hk by done.
    assert (Hnone : router_update i c !! k = None).
    { unfold router_update.
      rewrite !lookup_insert_ne, lookup_empty; [done | |];
        intros <-; apply Hout; [apply intent_declared | apply confidence_declared]. }
    by rewrite Hnone in Hk.
  - intros k Hin [v Hk]. rewrite !lookup_union.
    rewrite !declared_lookup_in by done. rewrite Hk.
    destruct (update' !! k), (router_update i c !! k); by eexists.
  - rewrite !lookup_union, Hi.
    destruct (declared update' !! "intent"), (declared input !! "intent");
      by eexists.
  - rewrite !lookup_union, Hc.
    destruct (declared update' !! "confidence"),
             (declared input !! "confidence"); by eexists.
  - exists s, i, c, update'. split; [done|].
    split; [by rewrite Hw1 in Hstage|]. intros k Hin Hk1 Hk2.
    rewrite !lookup_union. rewrite !declared_lookup_in by done.
    assert (Hnone : router_update i c !! k = None).
    { unfold router_update. by rewrite !lookup_insert_ne, lookup_empty. }
    rewrite Hnone. by destruct (update' !! k), (input !! k).
Qed.

(** A request that carries a [request_id], as [invoke] builds it: the
    run completes and its final state has declared keys only. *)
Lemma completed_run_keeps_declared_keys_witness :
  let input := <["request_id" := VStr "req_1000_1"]> ask_tesla in
  exists final trace w',
    run_graph quiet_env recursion_limit NRouter input (initial_world quiet_env)
    = (Ok (final, trace), w') /\
    (forall k, is_Some (final !! k) -> k ∈ state_keys) /\
    final !! "request_id" = None.
Proof.
  intros input. do 3 eexists. split; [vm_compute; reflexivity|].
  split; [|vm_compute; reflexivity].
  refine (proj1 (completed_run_keeps_declared_keys quiet_env input
                   _ _ (initial_world quiet_env) _ _)).
  vm_compute. reflexivity.
Defined.

(** ** Rejected requests *)

Lemma invoke_body_rejected env input w :
  passes_validation input = false ->
  exists e w1,
    invoke_body env input w = (Raise e, w1) /\ ext_calls w1 = ext_calls w.
Proof.
  unfold passes_validation. intros Hrej.
  unfold invoke_body, bind, try_except, dict_get, lift_res, _validate_input.
  destruct (input !! "user_message") as [[ | b | z | f | text | l | d | ]|] eqn:Hum;
    simpl; try (by do 2 eexists).
  destruct (String.length (strip text) =? 0)%nat eqn:Hblank; simpl in *.
  { by do 2 eexists. }
  apply Nat.leb_gt in Hrej. apply Nat.ltb_lt in Hrej. rewrite Hrej. simpl.
  by do 2 eexists.
Qed.

Lemma retry_loop_all_rejected env retries delay fname func todo :
  backoffs_sleepable retries delay ->
  (forall w, exists e w1, func w = (Raise e, w1) /\ ext_calls w1 = ext_calls w) ->
  forall attempt last w,
    0 <= attempt ->
    exists last' w',
      retry_loop env retries delay fname func todo attempt last w
      = (Ok (Broke last'), w') /\
      ext_calls w' = ext_calls w.
Proof.
  intros Hsl Hrej. induction todo as [|todo IH]; intros attempt last w Ha.
  { by do 2 eexists. }
  destruct (Hrej w) as (e & w1 & Hf & Hext).
  destruct (is_validation_error e) eqn:Hval.
  - rewrite (retry_loop_validation _ _ _ _ _ _ _ _ _ _ _ Hf Hval).
    by do 2 eexists.
  - destruct (Z.lt_ge_cases attempt retries) as [Hlt|Hge].
    + rewrite (retry_loop_retry _ _ _ _ _ _ _ _ _ _ _ Hf Hval Hlt)
        by (apply Hsl; lia).
      destruct (IH (attempt + 1) (Some e)
                  (retried_effect env delay fname attempt e w1))
        as (last' & w' & -> & Hext'); [lia|].
      exists last', w'. split; [reflexivity|].
      rewrite Hext'. exact Hext.
    + rewrite (retry_loop_last _ _ _ _ _ _ _ _ _ _ _ Hf Hval) by lia.
      by do 2 eexists.
Qed.

(** X16. A request that [_validate_input] does not let through (no
    [user_message], one that is not a string, a blank one or one longer
    than 1000 characters) never reaches the classifier or a stage: the
    decorated [invoke] returns the fallback response without a single
    collaborator call. *)
Theorem rejected_request_never_reaches_the_pipeline (env : Env)
    (input_data : Dict) (w : World) :
  passes_validation input_data = false ->
  exists w',
    invoke env input_data w = (Ok invoke_fallback, w') /\
    ext_calls w' = ext_calls w.
Proof.
  intros Hrej. unfold invoke, with_error_handling, bind.
  destruct (retry_loop_all_rejected env 2 1 "invoke" (invoke_body env input_data)
              (Z.to_nat (2 + 1)) invoke_backoffs_sleepable
              (fun w0 => invoke_body_rejected env input_data w0 Hrej) 0 None w)
    as (last' & w' & -> & Hext); [lia|].
  change (dict_truthy invoke_fallback) with true. cbv iota.
  eexists. split; [reflexivity|]. exact Hext.
Qed.

Lemma rejected_request_never_reaches_the_pipeline_witness :
  exists w',
    invoke quiet_env (<["user_message" := VInt 5]> ∅) (initial_world quiet_env)
    = (Ok invoke_fallback, w') /\
    ext_calls w' = ext_calls (initial_world quiet_env).
Proof.
  apply (rejected_request_never_reaches_the_pipeline quiet_env
           (<["user_message" := VInt 5]> ∅) (initial_world quiet_env)).
  reflexivity.
Defined.

(** ** The portfolio builder *)

Lemma equity_allocation_range (age : Z) (risk : string) :
  (1 # 10 <= _equity_allocation age risk /\ _equity_allocation age risk <= 9 # 10)%Q /\
  (1 # 10 <= 1 - _equity_allocation age risk /\
   1 - _equity_allocation age risk <= 9 # 10)%Q.
Proof.
  unfold _equity_allocation. cbv zeta.
  generalize (inject_Z (110 - age) / 100)%Q (_risk_shift risk). intros x s.
  pose proof (Q.le_min_l (9 # 10) (Qmax (1 # 10) (Qmax (1 # 10) (Qmin (9 # 10) x) + s))) as H1.
  pose proof (Q.le_max_l (1 # 10) (Qmax (1 # 10) (Qmin (9 # 10) x) + s)) as H2.
  assert (H3 : (1 # 10 <= Qmin (9 # 10) (Qmax (1 # 10) (Qmax (1 # 10) (Qmin (9 # 10) x) + s)))%Q).
  { apply Q.min_glb; [lra | exact H2]. }
  split; split; lra.
Qed.

Lemma clamp_monotone (lo hi a b : Q) :
  (a <= b)%Q -> (Qmin hi (Qmax lo a) <= Qmin hi (Qmax lo b))%Q.
Proof.
  intros H. apply Q.min_le_compat_l. by apply Q.max_le_compat_l.
Qed.

Lemma clamp_monotone' (lo hi a b : Q) :
  (a <= b)%Q -> (Qmax lo (Qmin hi a) <= Qmax lo (Qmin hi b))%Q.
Proof.
  intros H. apply Q.max_le_compat_l. by apply Q.min_le_compat_l.
Qed.

Lemma risk_shift_range risk :
  (_risk_shift "conservative" <= _risk_shift risk /\
   _risk_shift risk <= _risk_shift "aggressive")%Q.
Proof.
  unfold _risk_shift.
  destruct (String.eqb risk "aggressive"); [done|].
  destruct (String.eqb risk "moderate"); [done|].
  destruct (String.eqb risk "conservative"); done.
Qed.

(** X17. For every age and every risk label, known or not, the equity
    share is between 10% and 90%; an older investor never gets a larger
    equity share than a younger one with the same risk label, and for a
    given age the share of any risk label lies between those of
    ["conservative"] and ["aggressive"]. *)
Theorem equity_allocation_clamped_and_monotone (age1 age2 : Z) (risk : string) :
  (1 # 10 <= _equity_allocation age1 risk /\
   _equity_allocation age1 risk <= 9 # 10)%Q /\
  (age1 <= age2 ->
   (_equity_allocation age2 risk <= _equity_allocation age1 risk)%Q) /\
  (_equity_allocation age1 "conservative" <= _equity_allocation age1 risk /\
   _equity_allocation age1 risk <= _equity_allocation age1 "aggressive")%Q.
Proof.
  destruct (equity_allocation_range age1 risk) as [Heq _].
  split; [exact Heq|]. split.
  - intros Hage. unfold _equity_allocation. cbv zeta.
    apply clamp_monotone. apply Qplus_le_l. apply clamp_monotone'.
    apply Qmult_le_compat_r; [|done].
    rewrite <- Zle_Qle. lia.
  - destruct (risk_shift_range risk) as [H1 H2].
    unfold _equity_allocation. cbv zeta.
    split; apply clamp_monotone; by apply Qplus_le_r.
Qed.

(** The tickers and the weights of a selection do not depend on the prices. *)
Lemma select_etfs_weights download e b :
  List.map (fun x => (ticker x, weight x)) (_select_etfs download e b)
  = List.map (fun tw => (fst tw, py_round (snd tw) 4))
      (List.filter (fun tw => meaningful (snd tw))
         [("SPY", e * (60 # 100)); ("IEFA", e * (20 # 100));
          ("VWO", e * (20 # 100)); ("AGG", b * (70 # 100));
          ("SHY", b * (30 # 100))]%Q).
Proof.
  unfold _select_etfs. cbv zeta. rewrite List.map_map. done.
Qed.

Lemma age_from_range_cases age_range :
  _age_from_range age_range = 30 \/ _age_from_range age_range = 45 \/
  _age_from_range age_range = 65 \/ _age_from_range age_range = 40.
Proof.
  unfold _age_from_range.
  destruct (String.eqb age_range "young"); [tauto|].
  destruct (String.eqb age_range "middle-aged"); [tauto|].
  destruct (String.eqb age_range "senior"); tauto.
Qed.

Lemma risk_shift_cases risk :
  _risk_shift risk = 1 # 10 \/ _risk_shift risk = 0%Q \/
  _risk_shift risk = (- (1 # 10))%Q.
Proof.
  unfold _risk_shift.
  destruct (String.eqb risk "aggressive"); [tauto|].
  destruct (String.eqb risk "moderate"); [tauto|].
  destruct (String.eqb risk "conservative"); tauto.
Qed.

Lemma meaningful_true (w : Q) : (1 # 100 < w)%Q -> meaningful w = true.
Proof.
  intros H. unfold meaningful. destruct (Qlt_le_dec (1 # 100) w); [done|].
  exfalso. eapply Qlt_not_le; eassumption.
Qed.

(** X18. Whatever the age, the risk label and the outcome of the price
    download (prices, partial prices or a failure), the selection made for
    the computed equity share and its complement lists all five funds, in
    the order SPY, IEFA, VWO, AGG, SHY: no fund is ever dropped by the
    1% threshold. *)
Theorem every_profile_gets_the_five_funds
    (download : list string -> option (gmap string Q))
    (age : Z) (risk : string) :
  let equity_pct := _equity_allocation age risk in
  List.map ticker (_select_etfs download equity_pct (1 - equity_pct))
  = ["SPY"; "IEFA"; "VWO"; "AGG"; "SHY"].
Proof.
  intros equity_pct.
  destruct (equity_allocation_range age risk) as [[H1 H2] [H3 H4]].
  fold equity_pct in H1, H2, H3, H4.
  replace (List.map ticker (_select_etfs download equity_pct (1 - equity_pct)))
    with (List.map fst (List.map (fun x => (ticker x, weight x))
                          (_select_etfs download equity_pct (1 - equity_pct))))
    by (rewrite List.map_map; done).
  rewrite select_etfs_weights.
  cbn [List.filter snd fst].
  rewrite !meaningful_true by lra.
  reflexivity.
Qed.

(** X19. For every age range (the three named ones and any other text)
    and every risk label, the weights of the selected funds, rounded to
    four decimals, add up to exactly 1, and each of them is above 1%. *)
Theorem named_profiles_weights_sum_to_one
    (download : list string -> option (gmap string Q))
    (age_range risk : string) :
  let equity_pct := _equity_allocation (_age_from_range age_range) risk in
  let weights :=
    List.map weight (_select_etfs download equity_pct (1 - equity_pct)) in
  (Qsum weights == 1)%Q /\ Forall (fun w => (1 # 100 < w)%Q) weights.
Proof.
  intros equity_pct weights. unfold weights.
  replace (List.map weight (_select_etfs download equity_pct (1 - equity_pct)))
    with (List.map snd (List.map (fun x => (ticker x, weight x))
                          (_select_etfs download equity_pct (1 - equity_pct))))
    by (rewrite List.map_map; done).
  rewrite select_etfs_weights. unfold equity_pct. clear equity_pct weights.
  unfold _equity_allocation. cbv zeta.
  destruct (age_from_range_cases age_range) as [-> | [-> | [-> | ->]]];
    destruct (risk_shift_cases risk) as [-> | [-> | ->]];
    vm_compute; (split; [reflexivity | repeat (constructor; [reflexivity|]); constructor]).
Qed.

(** ** The financial health score *)

Lemma bump3 (c1 c2 c3 : bool) (s a b c : Z) :
  (if c1 then s + a else if c2 then s + b else if c3 then s + c else s)
  = s + (if c1 then a else if c2 then b else if c3 then c else 0).
Proof. destruct c1, c2, c3; lia. Qed.

Lemma bump2 (c1 c2 : bool) (s a b : Z) :
  (if c1 then s + a else if c2 then s + b else s)
  = s + (if c1 then a else if c2 then b else 0).
Proof. destruct c1, c2; lia. Qed.

Lemma health_score_sum ratios :
  fst (calculate_financial_health_score ratios)
  = band3 (15 # 100) (10 # 100) (5 # 100) 10 7 4 (ratios_get ratios "ROE")
    + band3 (20 # 100) (10 # 100) (5 # 100) 10 7 4 (ratios_get ratios "Profit_Margin")
    + band3 (15 # 100) (10 # 100) (5 # 100) 10 7 4 (ratios_get ratios "Operating_Margin")
    + range3 15 25 35 15 10 5 (ratios_get ratios "PE_Ratio")
    + range3 (15 # 10) 3 5 10 7 4 (ratios_get ratios "PB_Ratio")
    + band3 2 (15 # 10) 1 10 7 4 (ratios_get ratios "Current_Ratio")
    + debt_points (ratios_get ratios "Debt_To_Equity")
    + coverage_points (ratios_get ratios "Interest_Coverage")
    + band3 (15 # 100) (5 # 100) 0 10 7 4 (ratios_get ratios "Revenue_Growth")
    + band3 (15 # 100) (5 # 100) 0 10 7 4 (ratios_get ratios "Earnings_Growth").
Proof.
  cbv beta delta [calculate_financial_health_score].
  next_score s0. next_score s1. next_score s2. next_score s3.
  next_score pe. next_score s4. next_score pb. next_score s5.
  next_score cr. next_score s6. next_score de. next_score s7.
  next_score s8. next_score s9. next_score s10. next_score rating.
  cbn [fst].
  assert (E1 : s1 = s0 + band3 (15 # 100) (10 # 100) (5 # 100) 10 7 4
                         (ratios_get ratios "ROE")) by apply bump3.
  assert (E2 : s2 = s1 + band3 (20 # 100) (10 # 100) (5 # 100) 10 7 4
                         (ratios_get ratios "Profit_Margin")) by apply bump3.
  assert (E3 : s3 = s2 + band3 (15 # 100) (10 # 100) (5 # 100) 10 7 4
                         (ratios_get ratios "Operating_Margin")) by apply bump3.
  assert (E4 : s4 = s3 + range3 15 25 35 15 10 5 pe) by apply bump3.
  assert (E5 : s5 = s4 + range3 (15 # 10) 3 5 10 7 4 pb) by apply bump3.
  assert (E6 : s6 = s5 + band3 2 (15 # 10) 1 10 7 4 cr) by apply bump3.
  assert (E7 : s7 = s6 + debt_points de) by apply bump3.
  assert (E8 : s8 = s7 + coverage_points (ratios_get ratios "Interest_Coverage"))
    by apply bump2.
  assert (E9 : s9 = s8 + band3 (15 # 100) (5 # 100) 0 10 7 4
                         (ratios_get ratios "Revenue_Growth")) by apply bump3.
  assert (E10 : s10 = s9 + band3 (15 # 100) (5 # 100) 0 10 7 4
                           (ratios_get ratios "Earnings_Growth")) by apply bump3.
  assert (E0 : s0 = 0) by reflexivity.
  clearbody s0 s1 s2 s3 s4 s5 s6 s7 s8 s9 s10.
  subst pe pb cr de. lia.
Qed.

Lemma band3_range t1 t2 t3 x : 0 <= band3 t1 t2 t3 10 7 4 x <= 10.
Proof. unfold band3. repeat case_match; lia. Qed.

Lemma range3_range t1 t2 t3 p1 p2 p3 x :
  0 <= p3 <= p2 -> p2 <= p1 -> 0 <= range3 t1 t2 t3 p1 p2 p3 x <= p1.
Proof. intros. unfold range3. repeat case_match; lia. Qed.

Lemma debt_points_range x : 0 <= debt_points x <= 10.
Proof. unfold debt_points. repeat case_match; lia. Qed.

Lemma coverage_points_range x : 0 <= coverage_points x <= 5.
Proof. unfold coverage_points. repeat case_match; lia. Qed.

(** X20. The financial health score of any set of ratios, missing,
    infinite or NaN entries included, is between 0 and 100; and a set of
    ratios without [Debt_To_Equity] scores at least 10, because the missing
    ratio is read as 0 and earns the full debt points. *)
Theorem health_score_range (ratios : gmap string pyfloat) :
  0 <= fst (calculate_financial_health_score ratios) <= 100 /\
  (ratios !! "Debt_To_Equity" = None ->
   10 <= fst (calculate_financial_health_score ratios)).
Proof.
  rewrite health_score_sum.
  pose proof (band3_range (15 # 100) (10 # 100) (5 # 100) (ratios_get ratios "ROE")).
  pose proof (band3_range (20 # 100) (10 # 100) (5 # 100) (ratios_get ratios "Profit_Margin")).
  pose proof (band3_range (15 # 100) (10 # 100) (5 # 100) (ratios_get ratios "Operating_Margin")).
  pose proof (range3_range 15 25 35 15 10 5 (ratios_get ratios "PE_Ratio") ltac:(lia) ltac:(lia)).
  pose proof (range3_range (15 # 10) 3 5 10 7 4 (ratios_get ratios "PB_Ratio") ltac:(lia) ltac:(lia)).
  pose proof (band3_range 2 (15 # 10) 1 (ratios_get ratios "Current_Ratio")).
  pose proof (debt_points_range (ratios_get ratios "Debt_To_Equity")).
  pose proof (coverage_points_range (ratios_get ratios "Interest_Coverage")).
  pose proof (band3_range (15 # 100) (5 # 100) 0 (ratios_get ratios "Revenue_Growth")).
  pose proof (band3_range (15 # 100) (5 # 100) 0 (ratios_get ratios "Earnings_Growth")).
  split; [lia|].
  intros Hnone. unfold ratios_get at 7. rewrite Hnone.
  change (debt_points (default (Fin 0) None)) with 10. lia.
Qed.

Lemma float_lt_le_trans c x y :
  float_lt c x = true -> float_le x y = true -> float_lt c y = true.
Proof.
  destruct c as [c| | |], x as [a| | |], y as [b| | |]; cbn; try done.
  repeat destruct (Qlt_le_dec _ _); try done. lra.
Qed.

Lemma float_le_lt_trans c x y :
  float_le x y = true -> float_lt y c = true -> float_lt x c = true.
Proof.
  destruct c as [c| | |], x as [a| | |], y as [b| | |]; cbn; try done.
  repeat destruct (Qlt_le_dec _ _); try done. lra.
Qed.

Lemma band3_monotone t1 t2 t3 x y :
  float_le x y = true ->
  band3 t1 t2 t3 10 7 4 x <= band3 t1 t2 t3 10 7 4 y.
Proof.
  intros Hle. unfold band3.
  destruct (float_lt (Fin t1) x) eqn:H1.
  { by rewrite (float_lt_le_trans _ _ _ H1 Hle). }
  destruct (float_lt (Fin t2) x) eqn:H2.
  { rewrite (float_lt_le_trans _ _ _ H2 Hle). case_match; lia. }
  destruct (float_lt (Fin t3) x) eqn:H3.
  { rewrite (float_lt_le_trans _ _ _ H3 Hle). repeat case_match; lia. }
  repeat case_match; lia.
Qed.

Lemma coverage_points_monotone x y :
  float_le x y = true -> coverage_points x <= coverage_points y.
Proof.
  intros Hle. unfold coverage_points.
  destruct (float_lt (Fin 5) x) eqn:H1.
  { by rewrite (float_lt_le_trans _ _ _ H1 Hle). }
  destruct (float_lt (Fin 2) x) eqn:H2.
  { rewrite (float_lt_le_trans _ _ _ H2 Hle). case_match; lia. }
  repeat case_match; lia.
Qed.

Lemma debt_points_antitone x y :
  float_le x y = true -> debt_points y <= debt_points x.
Proof.
  intros Hle. unfold debt_points.
  destruct (float_lt y (Fin (3 # 10))) eqn:H1.
  { by rewrite (float_le_lt_trans _ _ _ Hle H1). }
  destruct (float_lt y (Fin (6 # 10))) eqn:H2.
  { rewrite (float_le_lt_trans _ _ _ Hle H2). case_match; lia. }
  destruct (float_lt y (Fin 1)) eqn:H3.
  { rewrite (float_le_lt_trans _ _ _ Hle H3). repeat case_match; lia. }
  repeat case_match; lia.
Qed.

Lemma ratios_get_insert ratios k v : ratios_get (<[k := v]> ratios) k = v.
Proof. unfold ratios_get. by rewrite lookup_insert_eq. Qed.

Lemma ratios_get_insert_ne ratios k k' v :
  k <> k' -> ratios_get (<[k := v]> ratios) k' = ratios_get ratios k'.
Proof. intros. unfold ratios_get. by rewrite lookup_insert_ne. Qed.

(** X21. Replacing one ratio by a value that is at least as large (the
    ratio counting as 0 when absent) never lowers the score when the ratio
    is ROE, a margin, the current ratio, the interest coverage or a growth
    rate, and never raises it when the ratio is [Debt_To_Equity]. *)
Theorem health_score_monotone (ratios : gmap string pyfloat) (key : string)
    (better : pyfloat) :
  float_le (ratios_get ratios key) better = true ->
  (key ∈ higher_is_better ->
   fst (calculate_financial_health_score ratios)
   <= fst (calculate_financial_health_score (<[key := better]> ratios))) /\
  (key = "Debt_To_Equity" ->
   fst (calculate_financial_health_score (<[key := better]> ratios))
   <= fst (calculate_financial_health_score ratios)).
Proof.
  intros Hle. rewrite !health_score_sum. split.
  - intros Hkey. unfold higher_is_better in Hkey.
    repeat (apply elem_of_cons in Hkey as [-> | Hkey]);
      [ | | | | | | | by apply elem_of_nil in Hkey];
      repeat (rewrite ratios_get_insert_ne by discriminate);
      rewrite ratios_get_insert;
      repeat (rewrite ratios_get_insert_ne by discriminate).
    + pose proof (band3_monotone (15 # 100) (10 # 100) (5 # 100) _ _ Hle). lia.
    + pose proof (band3_monotone (20 # 100) (10 # 100) (5 # 100) _ _ Hle). lia.
    + pose proof (band3_monotone (15 # 100) (10 # 100) (5 # 100) _ _ Hle). lia.
    + pose proof (band3_monotone 2 (15 # 10) 1 _ _ Hle). lia.
    + pose proof (coverage_points_monotone _ _ Hle). lia.
    + pose proof (band3_monotone (15 # 100) (5 # 100) 0 _ _ Hle). lia.
    + pose proof (band3_monotone (15 # 100) (5 # 100) 0 _ _ Hle). lia.
  - intros ->. repeat (rewrite ratios_get_insert_ne by discriminate).
    rewrite ratios_get_insert.
    repeat (rewrite ratios_get_insert_ne by discriminate).
    pose proof (debt_points_antitone _ _ Hle). lia.
Qed.

Lemma health_score_monotone_witness :
  fst (calculate_financial_health_score (<["ROE" := Fin (8 # 100)]> ∅))
  <= fst (calculate_financial_health_score
            (<["ROE" := Fin (12 # 100)]> (<["ROE" := Fin (8 # 100)]> ∅))).
Proof.
  refine (proj1 (health_score_monotone (<["ROE" := Fin (8 # 100)]> ∅) "ROE"
                   (Fin (12 # 100)) _) _).
  - vm_compute. reflexivity.
  - apply list_elem_of_here.
Defined.

(** ** RSI labels *)

Lemma float_le_trans x y z :
  float_le x y = true -> float_le y z = true -> float_le x z = true.
Proof.
  destruct x as [a| | |], y as [b| | |], z as [c| | |]; cbn; try done.
  repeat destruct (Qlt_le_dec _ _); try done. lra.
Qed.

(** X22. The labels of [interpret_rsi] follow the scale: a larger RSI
    never gets a lower label in the order oversold, weak, neutral, strong,
    overbought, infinite values included; an RSI that is NaN, as computed
    from too short a price history, is labelled ["neutral"]. *)
Theorem rsi_labels_follow_the_scale (x y : pyfloat) :
  interpret_rsi NaN = "neutral" /\
  (float_le x y = true ->
   rsi_rank (interpret_rsi x) <= rsi_rank (interpret_rsi y)).
Proof.
  split; [reflexivity|]. intros Hle. unfold interpret_rsi.
  destruct (float_le (Fin 70) x) eqn:X1.
  { by rewrite (float_le_trans _ _ _ X1 Hle). }
  destruct (float_le (Fin 70) y) eqn:Y1.
  { repeat case_match; done. }
  destruct (float_le y (Fin 30)) eqn:Y2.
  { by rewrite (float_le_trans _ _ _ Hle Y2). }
  destruct (float_le x (Fin 30)) eqn:X2.
  { repeat case_match; done. }
  destruct (float_le (Fin 60) x) eqn:X3.
  { by rewrite (float_le_trans _ _ _ X3 Hle). }
  destruct (float_le (Fin 60) y) eqn:Y3.
  { repeat case_match; done. }
  destruct (float_le y (Fin 40)) eqn:Y4.
  { by rewrite (float_le_trans _ _ _ Hle Y4). }
  repeat case_match; done.
Qed.

(** ** Concepts found in a question *)

Lemma prefix_spec p : forall s,
  String.prefix p s = true <-> exists y, s = p +:+ y.
Proof.
  induction p as [|a p IH]; intros s.
  - destruct s; simpl; (split; [intros _; by eexists | done]).
  - destruct s as [|b s]; simpl; [split; [done | by intros [y Hy]]|].
    destruct (Ascii.ascii_dec a b) as [->|Hne].
    + rewrite IH. split; intros [y Hy]; exists y; [by rewrite Hy | by injection Hy].
    + split; [done|]. intros [y Hy]. injection Hy as Hab _. congruence.
Qed.

Lemma str_contains_spec p : forall s,
  str_contains p s = true <-> exists x y, s = x +:+ p +:+ y.
Proof.
  induction s as [|b s IH]; cbn [str_contains].
  - rewrite orb_false_r, prefix_spec. split.
    + intros [y Hy]. by exists EmptyString, y.
    + intros (x & y & H). destruct x; [by exists y|discriminate].
  - rewrite orb_true_iff, prefix_spec, IH. split.
    + intros [[y Hy]|(x & y & H)].
      * by exists EmptyString, y.
      * exists (String b x), y. simpl. by rewrite H.
    + intros (x & y & H). destruct x as [|c x].
      * left. by exists y.
      * right. injection H as _ H. by exists x, y.
Qed.

Lemma string_app_assoc (a b c : string) : (a +:+ b) +:+ c = a +:+ (b +:+ c).
Proof.
  induction a as [|x a IH]; [done|].
  change (String x ((a +:+ b) +:+ c) = String x (a +:+ (b +:+ c))). by f_equal.
Qed.

(** A text that contains [b] contains every part of [b]. *)
Lemma str_contains_part a b s :
  str_contains a b = true -> str_contains b s = true -> str_contains a s = true.
Proof.
  rewrite !str_contains_spec. intros (x & y & ->) (x' & y' & ->).
  exists (x' +:+ x), (y +:+ y'). by rewrite !string_app_assoc.
Qed.

Lemma head_map_filter {A B} (f : A -> B) (p : A -> bool) l :
  head (List.map f (List.filter p l)) = f <$> List.find p l.
Proof.
  induction l as [|a l IH]; simpl; [done|]. by destruct (p a).
Qed.

Lemma elem_of_map_filter {A B} (f : A -> B) (p : A -> bool) l a :
  a ∈ l -> p a = true -> f a ∈ List.map f (List.filter p l).
Proof.
  intros Ha Hp. apply list_elem_of_In, in_map, filter_In.
  split; [by apply list_elem_of_In | done].
Qed.

Lemma map_filter_sublist {A B} (f : A -> B) (p : A -> bool) l :
  sublist (List.map f (List.filter p l)) (List.map f l).
Proof.
  induction l as [|a l IH]; simpl; [constructor|].
  destruct (p a); simpl; by constructor.
Qed.

(** X23. The concepts found in a question are listed in the order of the
    keyword table, each at most once.  Because ["fund"] is a keyword of
    [mutual_funds], which precedes [etf] in the table, every question that
    mentions a fund matches [mutual_funds]; so [etf] is the primary (first)
    concept only for a question that mentions ["etf"] and no fund, never
    for one about an "index fund" or an "exchange traded fund". *)
Theorem fund_questions_are_answered_as_mutual_funds (query : string) :
  let found := extract_financial_concepts query in
  sublist found (List.map fst concept_keywords) /\
  (str_contains "fund" (str_lower query) = true -> "mutual_funds" ∈ found) /\
  (head found = Some "etf" -> str_contains "etf" (str_lower query) = true) /\
  (head found = Some "etf" -> str_contains "fund" (str_lower query) = false).
Proof.
  intros found. unfold found, extract_financial_concepts. cbv zeta.
  set (q := str_lower query).
  split; [apply map_filter_sublist|].
  split.
  { intros Hfund.
    apply (elem_of_map_filter fst _ concept_keywords
             ("mutual_funds", ["mutual fund"; "mutual funds"; "fund"])).
    - unfold concept_keywords. do 5 apply list_elem_of_further.
      apply list_elem_of_here.
    - cbn [snd existsb]. rewrite Hfund. by rewrite !orb_true_r. }
  assert (Hetf : head (List.map fst
                   (List.filter
                      (fun ck => existsb (fun keyword => str_contains keyword q) (snd ck))
                      concept_keywords)) = Some "etf" ->
                 str_contains "etf" q = true /\ str_contains "fund" q = false).
  { rewrite head_map_filter. unfold concept_keywords. cbn [List.find snd].
    destruct (existsb _ ["compound"; "compounding"; "growth"]);
      [intros H; discriminate H|].
    destruct (existsb _ ["diversify"; "diversification"; "spread risk"]);
      [intros H; discriminate H|].
    destruct (existsb _ ["p/e ratio"; "pe ratio"; "price earnings";
                         "price to earnings"]);
      [intros H; discriminate H|].
    destruct (existsb _ ["stock"; "shares"; "equity"; "share market"]);
      [intros H; discriminate H|].
    destruct (existsb _ ["bond"; "fixed income"; "debt securities"]);
      [intros H; discriminate H|].
    destruct (existsb _ ["mutual fund"; "mutual funds"; "fund"]) eqn:Emf;
      [intros H; discriminate H|].
    destruct (existsb _ ["etf"; "exchange traded fund"; "index fund"]) eqn:Eetf;
      [|repeat case_match; let Hd := fresh in intros Hd; discriminate Hd].
    intros _.
    cbn [existsb] in Emf, Eetf. rewrite !orb_false_r in Emf, Eetf.
    apply orb_false_elim in Emf as [_ Emf].
    apply orb_false_elim in Emf as [_ Hfund].
    split; [|exact Hfund].
    apply orb_true_iff in Eetf as [Hetf|Eetf]; [exact Hetf|].
    exfalso.
    assert (str_contains "fund" q = true); [|congruence].
    apply orb_true_iff in Eetf as [E|E];
      (eapply str_contains_part; [|exact E]); reflexivity. }
  split; intros H; by apply Hetf.
Qed.

Lemma stub_knowledge_base_keys : has_source_keys stub_knowledge_base.
Proof.
  intros key. unfold stub_knowledge_base.
  set (l := List.map (fun key => (key, <["definition" := VStr key]> ∅))
              get_all_concepts).
  change get_all_concepts with (l.*1).
  rewrite <- not_eq_None_Some, <- not_elem_of_list_to_map.
  split; [|tauto]. intros H. by destruct (decide (key ∈ l.*1)).
Qed.

(** X24. A question that mentions ["compound"] or ["growth"] has the
    primary concept ["compound interest"], written with a space; the
    knowledge base files it under [compound_interest], so [get_concept]
    returns the empty dictionary for it.  Every other concept name that
    the extraction returns is a key of the knowledge base. *)
Theorem compound_interest_is_looked_up_in_vain
    (knowledge_base : gmap string Dict) (query : string) :
  has_source_keys knowledge_base ->
  let found := extract_financial_concepts query in
  ((str_contains "compound" (str_lower query) = true \/
    str_contains "growth" (str_lower query) = true) ->
   head found = Some "compound interest") /\
  get_concept knowledge_base "compound interest" = ∅ /\
  (forall concept, concept ∈ found -> concept <> "compound interest" ->
                   is_Some (knowledge_base !! str_lower concept)).
Proof.
  intros Hkeys found. split_conj.
  - intros Hq. unfold found, extract_financial_concepts. cbv zeta.
    rewrite head_map_filter. unfold concept_keywords. cbn [List.find snd existsb].
    destruct Hq as [-> | ->]; by rewrite ?orb_true_r.
  - unfold get_concept.
    destruct (knowledge_base !! str_lower "compound interest") as [d|] eqn:Hd; [|done].
    exfalso. assert (Hin : str_lower "compound interest" ∈ get_all_concepts)
      by (apply Hkeys; by eexists).
    vm_compute in Hin.
    repeat (apply elem_of_cons in Hin as [Hin|Hin]; [discriminate Hin|]).
    by apply elem_of_nil in Hin.
  - intros concept Hin Hne. apply Hkeys.
    assert (Hsub : concept ∈ List.map fst concept_keywords).
    { eapply elem_of_sublist; [exact Hin|]. apply map_filter_sublist. }
    unfold concept_keywords in Hsub. cbn [List.map fst] in Hsub.
    repeat (apply elem_of_cons in Hsub as [->|Hsub];
            [first [done | vm_compute;
                    by repeat first [apply list_elem_of_here | apply list_elem_of_further]]|]).
    by apply elem_of_nil in Hsub.
Qed.

Lemma compound_interest_is_looked_up_in_vain_witness :
  get_concept stub_knowledge_base "compound interest" = ∅.
Proof.
  apply (compound_interest_is_looked_up_in_vain stub_knowledge_base
           "How does growth work?" stub_knowledge_base_keys).
Defined.
